(** * dbt-bq-dry-runner: a shallow embedding of [dry_run.py] and [hooks.py]

    The development follows the two source files of the package:

    - [Pathlib]: the part of Python's [pathlib] (POSIX flavour) that the
      program uses: [Path(s)], [path.parts], [str(path)], the [/] operator
      and [Path( *parts)];
    - [Py]: exceptions, observable events and the small writer/error monad
      in which the effectful methods are written;
    - [DryRun]: the class [BigQueryDryRunner] of [dry_run.py], with the
      thread pool of [run_all_models];
    - [Hooks]: the script [hooks.py];
    - [Notions] and [Scenarios]: the vocabulary of the statements and the
      concrete worlds of the examples;
    - the facts: [PathlibFacts], [DryRunFacts], [PoolFacts], [BatchFacts]
      and [HooksFacts], then [RunnerFacts], [AdapterFacts], [BatchMoreFacts]
      and [ScriptFacts]. *)

From Stdlib Require Import String Ascii List ZArith Lia Permutation.
From stdpp Require Import base option list strings gmap.

Local Open Scope string_scope.
Local Open Scope list_scope.

(** ** pathlib (POSIX flavour) *)

Module Pathlib.

(** A pure path is identified with its [parts] tuple, pathlib's own
    canonical form: [Path("/a/b").parts == ("/", "a", "b")]. *)
Definition Path : Type := list string.

Definition slash : ascii := "/"%char.

(** [s.split("/")]: never empty, [""] splits to [[""]]. *)
Fixpoint split_slash (s : string) : list string :=
  match s with
  | EmptyString => [EmptyString]
  | String a s' =>
      if Ascii.eqb a slash then EmptyString :: split_slash s'
      else match split_slash s' with
           | [] => [String a EmptyString]
           | h :: t => String a h :: t
           end
  end.

(** Empty components and ["."] components are dropped when parsing. *)
Definition keep_segment (x : string) : bool :=
  negb (String.eqb x "") && negb (String.eqb x ".").

Definition starts_with_slash (s : string) : bool :=
  match s with
  | String a _ => Ascii.eqb a slash
  | EmptyString => false
  end.

(** POSIX: exactly two leading slashes are kept as the root ["//"], one or
    three and more collapse to ["/"]. *)
Definition root_of (s : string) : string :=
  match s with
  | String a (String b rest) =>
      if Ascii.eqb a slash then
        if Ascii.eqb b slash then
          if starts_with_slash rest then "/" else "//"
        else "/"
      else ""
  | String a EmptyString => if Ascii.eqb a slash then "/" else ""
  | EmptyString => ""
  end.

Definition is_root (x : string) : bool :=
  String.eqb x "/" || String.eqb x "//".

(** [Path(s)] for one string argument. *)
Definition Path_of_str (s : string) : Path :=
  let segs := List.filter keep_segment (split_slash s) in
  if starts_with_slash s then root_of s :: segs else segs.

(** [p / s]: an absolute right operand replaces the left one. *)
Definition joinpath (p : Path) (s : string) : Path :=
  if starts_with_slash s then Path_of_str s else p ++ Path_of_str s.

(** [Path( *args)]. *)
Definition Path_of_args (args : list string) : Path :=
  List.fold_left joinpath args [].

Fixpoint join_slash (l : list string) : string :=
  match l with
  | [] => ""
  | [x] => x
  | x :: rest => x ++ "/" ++ join_slash rest
  end.

(** [str(p)]. *)
Definition str (p : Path) : string :=
  match p with
  | [] => "."
  | r :: t => if is_root r then r ++ join_slash t else join_slash (r :: t)
  end.

Definition is_absolute (p : Path) : bool :=
  match p with
  | r :: _ => is_root r
  | [] => false
  end.

(** [tuple.index(x)]: position of the first occurrence, [None] standing
    for the [ValueError] Python raises when there is none. *)
Fixpoint index (x : string) (l : list string) : option nat :=
  match l with
  | [] => None
  | y :: t => if String.eqb y x then Some 0 else S <$> index x t
  end.

(** What a component of a parsed path looks like. *)
Fixpoint has_slash (s : string) : bool :=
  match s with
  | EmptyString => false
  | String a s' => Ascii.eqb a slash || has_slash s'
  end.

Definition clean (x : string) : bool :=
  keep_segment x && negb (has_slash x).

(** Normal form of a [parts] tuple: an optional root, then components. *)
Definition wf_path (p : Path) : bool :=
  match p with
  | [] => true
  | r :: t => (is_root r || clean r) && forallb clean t
  end.

End Pathlib.

(** ** Python values, exceptions, effects *)

Module Py.
Import Pathlib.

(** One entry of [BadRequest.errors]: a dict of strings. *)
Abbreviation error_entry := (gmap string string).

(** Failures of the remote service other than a 400 response. *)
Inductive api_failure : Type :=
| Unauthorized
| Forbidden
| NotFound
| InternalServerError
| ServiceUnavailable
| TransportError
| DefaultCredentialsError.

Inductive exn : Type :=
| BadRequest (errors : list error_entry)
| GoogleAPICallError (kind : api_failure)
| FileNotFoundError (path : string)
| IsADirectoryError (path : string)
| PermissionError (path : string)
| YAMLError
| ValueError
| IndexError
| KeyError (key : string)
| TypeError
| NotImplementedError (msg : string)
| SystemExit (code : Z).

Inductive outcome (A : Type) : Type :=
| Returned (a : A)
| Raised (e : exn).
Arguments Returned {A} a.
Arguments Raised {A} e.

(** [QueryJobConfig]: the [dry_run] flag and the other properties set
    through keyword arguments. *)
Record QueryJobConfig : Type := {
  dry_run : bool;
  properties : gmap string string
}.

Record QueryJob : Type := { job_id : string }.

Record Client : Type := {
  client_project : string;
  client_location : string
}.

(** What [client.query] does with a request. *)
Inductive response : Type :=
| Accepted (job : QueryJob)
| Rejected (errors : list error_entry)
| Failed (kind : api_failure).

Inductive level : Type := INFO | ERROR.

(** The observable actions of the program, in program order. *)
Inductive event : Type :=
| EClient (project location : string)
| EOpen (path : string)
| EQuery (sql : string) (job_config : QueryJobConfig)
| ELog (lvl : level) (msg : string)
| EPrint (msg : string).

(** A computation: the events it performed, and how it ended. *)
Definition Py (A : Type) : Type := (list event * outcome A)%type.

Definition ret {A} (a : A) : Py A := ([], Returned a).
Definition raise {A} (e : exn) : Py A := ([], Raised e).
Definition emit (ev : event) : Py unit := ([ev], Returned tt).

Definition bind {A B} (m : Py A) (k : A → Py B) : Py B :=
  match m with
  | (t, Returned a) => let '(t', o) := k a in (t ++ t', o)
  | (t, Raised e) => (t, Raised e)
  end.

#[global] Instance Py_ret : MRet Py := @ret.
#[global] Instance Py_bind : MBind Py := λ A B k m, bind m k.

(** [try: body except <class> as e: handler]: [handler e] is [None] when
    the clause does not match the exception. *)
Definition try_except {A} (body : Py A) (handler : exn → option (Py A)) : Py A :=
  match body with
  | (t, Raised e) =>
      match handler e with
      | Some (t', o) => (t ++ t', o)
      | None => (t, Raised e)
      end
  | r => r
  end.

Definition except_BadRequest {A} (h : list error_entry → Py A) (e : exn)
  : option (Py A) :=
  match e with
  | BadRequest errors => Some (h errors)
  | _ => None
  end.

Definition trace {A} (m : Py A) : list event := fst m.
Definition result {A} (m : Py A) : outcome A := snd m.

Definition is_raised {A} (o : outcome A) : bool :=
  match o with Raised _ => true | Returned _ => false end.

(** YAML documents, as far as the program looks into them. *)
Inductive yval : Type :=
| YStr (s : string)
| YOther.

Inductive ydoc : Type :=
| YDict (d : gmap string yval)
| YNotDict.

(** The file system: a tree of directories and regular files. The flag of a
    directory says whether it can be listed and searched, the content of a
    file is [None] when it cannot be read. *)
#[warnings="-register-all"]
Inductive node : Type :=
| File (content : option string)
| Dir (readable : bool) (entries : list (string * node)).

(** Everything outside the program: the file system and the working
    directory, [yaml.safe_load] ([None] when the text is not YAML), the
    failure of [Client(...)] if it fails, and the remote service. *)
Record World : Type := {
  fs_root : node;
  cwd : Path;
  yaml_safe_load : string → option ydoc;
  client_init : string → string → option api_failure;
  client_query : Client → string → QueryJobConfig → response
}.

Fixpoint assoc (k : string) (l : list (string * node)) : option node :=
  match l with
  | [] => None
  | (k', n) :: rest => if String.eqb k' k then Some n else assoc k rest
  end.

(** Path resolution from a directory, [stack] holding its ancestors. *)
Fixpoint walk (stack : list node) (cur : node) (segs : list string)
  : option node :=
  match segs with
  | [] => Some cur
  | s :: rest =>
      match cur with
      | File _ => None
      | Dir readable entries =>
          if negb readable then None
          else if String.eqb s ".." then
            match stack with
            | [] => walk [] cur rest
            | parent :: stack' => walk stack' parent rest
            end
          else
            match assoc s entries with
            | Some n => walk (cur :: stack) n rest
            | None => None
            end
      end
  end.

Definition strip_root (p : Path) : list string :=
  match p with
  | r :: t => if is_root r then t else p
  | [] => []
  end.

(** What the operating system finds at a path name; relative names start
    at the working directory. *)
Definition fs_lookup (w : World) (name : string) : option node :=
  let p := Path_of_str name in
  walk [] (fs_root w) (strip_root (if is_absolute p then p else cwd w ++ p)).

(** [open(path, "r").read()]. A name that leads nowhere is reported as
    [FileNotFoundError], whatever the reason ([Notions.fs_failure] tells the
    reasons apart). *)
Definition open_read (w : World) (path : string) : Py string :=
  emit (EOpen path);;
  match fs_lookup w path with
  | None => raise (FileNotFoundError path)
  | Some (Dir _ _) => raise (IsADirectoryError path)
  | Some (File None) => raise (PermissionError path)
  | Some (File (Some text)) => mret text
  end.

Definition is_file (w : World) (p : Path) : bool :=
  match fs_lookup w (str p) with
  | Some (File _) => true
  | _ => false
  end.

Definition endswith (s suffix : string) : bool :=
  let n := String.length s in
  let m := String.length suffix in
  (m <=? n)%nat && String.eqb (substring (n - m) m s) suffix.

(** The directories below (and including) a directory, each with its
    entries; an unreadable directory contributes nothing. *)
Fixpoint iterate_directories (here : Path) (n : node)
  : list (Path * list (string * node)) :=
  match n with
  | File _ => []
  | Dir readable entries =>
      if readable then
        (here, entries) ::
        flat_map (λ e, iterate_directories (here ++ [fst e]) (snd e)) entries
      else []
  end.

(** [root.rglob(pattern)] for a pattern [*<suffix>]: the entries of every
    directory of the tree whose name ends in [suffix]; nothing at all when
    [root] is not a directory that can be listed. The directories above
    [root] are taken to be searchable: where one is not, [is_dir] raises
    instead (see [Notions.absent_or_unlistable]). *)
Definition rglob (w : World) (root : Path) (suffix : string) : list Path :=
  match fs_lookup w (str root) with
  | Some n =>
      flat_map
        (λ d, (λ e, fst d ++ [fst e]) <$>
                List.filter (λ e, endswith (fst e) suffix) (snd d))
        (iterate_directories root n)
  | None => []
  end.

(** [QueryJobConfig(dry_run=True, **opts)]: a keyword given twice is a
    [TypeError]. The checks the library makes on the other options (unknown
    properties, refused values) are not part of this model. *)
Definition QueryJobConfig_new (opts : gmap string string) : Py QueryJobConfig :=
  match opts !! "dry_run" with
  | Some _ => raise TypeError
  | None => mret {| dry_run := true; properties := opts |}
  end.

(** [Client(project=..., location=...)]. *)
Definition Client_new (w : World) (project location : string) : Py Client :=
  emit (EClient project location);;
  match client_init w project location with
  | Some kind => raise (GoogleAPICallError kind)
  | None => mret {| client_project := project; client_location := location |}
  end.

(** [client.query(sql, job_config=job_config)]. *)
Definition query (w : World) (c : Client) (sql : string) (cfg : QueryJobConfig)
  : Py QueryJob :=
  emit (EQuery sql cfg);;
  match client_query w c sql cfg with
  | Accepted job => mret job
  | Rejected errors => raise (BadRequest errors)
  | Failed kind => raise (GoogleAPICallError kind)
  end.

(** [e.errors[0]['message']]. *)
Definition first_error_message (errors : list error_entry) : Py string :=
  match errors with
  | [] => raise IndexError
  | entry :: _ =>
      match entry !! "message" with
      | Some m => mret m
      | None => raise (KeyError "message")
      end
  end.

Definition logging_info (msg : string) : Py unit := emit (ELog INFO msg).
Definition logging_error (msg : string) : Py unit := emit (ELog ERROR msg).
Definition print (msg : string) : Py unit := emit (EPrint msg).

(** Python truthiness of an optional string argument. *)
Definition truthy (s : option string) : bool :=
  match s with
  | Some x => negb (String.eqb x "")
  | None => false
  end.

End Py.

(** ** dry_run.py *)

Module DryRun.
Import Pathlib Py.

(** The attributes [__init__] sets on a [BigQueryDryRunner]. *)
Record BigQueryDryRunner : Type := {
  client : Client;
  dbt_project_config : ydoc;
  root_path : Path;
  dbt_target_dir : Path
}.

(** [model_path: Union[str, Path]]. *)
Inductive path_arg : Type :=
| PStr (s : string)
| PPath (p : Path).

(** [config["name"]]. *)
Definition getitem (config : ydoc) (key : string) : Py yval :=
  match config with
  | YDict d =>
      match d !! key with
      | Some v => mret v
      | None => raise (KeyError key)
      end
  | YNotDict => raise TypeError
  end.

(** [p / v] for a value read from the configuration. *)
Definition truediv (p : Path) (v : yval) : Py Path :=
  match v with
  | YStr s => mret (joinpath p s)
  | YOther => raise TypeError
  end.

Definition _trim_path_from (self : BigQueryDryRunner) (path : Path)
  (parent_dir : string) : Py Path :=
  let parts := path in
  match index parent_dir parts with
  | None => raise ValueError
  | Some idx => mret (Path_of_args (drop idx parts))
  end.

Definition _get_dbt_target_dir (self : BigQueryDryRunner)
  (target_dir : option string) : Py Path :=
  if negb (truthy target_dir) then
    name ← getitem (dbt_project_config self) "name";
    p ← truediv (joinpath (joinpath (root_path self) "target") "compiled") name;
    mret (joinpath p "models")
  else
    name ← getitem (dbt_project_config self) "name";
    p ← truediv
          (joinpath
             (joinpath (joinpath (root_path self) "target")
                (default "" target_dir))
             "compiled") name;
    mret (joinpath p "models").

Definition _get_dbt_project_config (w : World) (dbt_project_dir : option string)
  : Py ydoc :=
  let dbt_project_dir :=
    if truthy dbt_project_dir then Path_of_str (default "" dbt_project_dir)
    else Path_of_str "." in
  text ← open_read w (str (joinpath dbt_project_dir "dbt_project.yml"));
  match yaml_safe_load w text with
  | Some doc => mret doc
  | None => raise YAMLError
  end.

Definition __init__ (w : World) (project : string)
  (target_dir : option string) (location : string) : Py BigQueryDryRunner :=
  c ← Client_new w project location;
  config ← _get_dbt_project_config w None;
  let root := cwd w in
  let self := {| client := c; dbt_project_config := config;
                 root_path := root; dbt_target_dir := [] |} in
  dir ← _get_dbt_target_dir self target_dir;
  mret {| client := c; dbt_project_config := config;
          root_path := root; dbt_target_dir := dir |}.

Definition _get_compiled_models (w : World) (self : BigQueryDryRunner)
  : list Path :=
  List.filter (is_file w) (rglob w (dbt_target_dir self) ".sql").

Definition run (w : World) (self : BigQueryDryRunner) (sql : string)
  (opts : gmap string string) : Py QueryJob :=
  job_config ← QueryJobConfig_new opts;
  try_except
    (results ← query w (client self) sql job_config;
     logging_info "Provided query is valid.";;
     mret results)
    (except_BadRequest (λ errors,
       msg ← first_error_message errors;
       logging_error
         ("Error running the dry run for provided query. The sever returned an error: "
            ++ msg);;
       raise (BadRequest errors))).

Definition as_Path (model_path : path_arg) : Path :=
  match model_path with
  | PStr s => Path_of_str s
  | PPath p => p
  end.

Definition run_from_model (w : World) (self : BigQueryDryRunner)
  (model_path : path_arg) (opts : gmap string string) : Py QueryJob :=
  let model_path := as_Path model_path in
  sql ← open_read w (str model_path);
  job_config ← QueryJobConfig_new opts;
  try_except
    (results ← query w (client self) sql job_config;
     label ← _trim_path_from self model_path "models";
     logging_info ("Model " ++ str label ++ " is valid.");;
     mret results)
    (except_BadRequest (λ errors,
       label ← _trim_path_from self model_path "models";
       msg ← first_error_message errors;
       logging_error
         ("Error running the dry run for model " ++ str label
            ++ ". The sever returned an error: " ++ msg);;
       raise (BadRequest errors))).

(** *** The thread pool of [run_all_models]

    A future is pending ([None]) or finished with the events and the
    outcome of its call. The calls share no state and the world does not
    change during a batch, so what a call does is the same whenever it
    runs; the order in which the loop of [run_all_models] sees the futures
    is left to a schedule. The pool records the events of the calls in the
    order in which the calls finish; the events of one call stay together. *)
Record Future : Type := {
  fut_arg : string;
  fut_state : option (Py QueryJob)
}.

Record Executor : Type := {
  futures : list Future;
  pool_log : list event
}.

Definition new_executor : Executor := {| futures := []; pool_log := [] |}.

(** [executor.submit(fn, arg)]. *)
Definition submit (ex : Executor) (arg : string) : Executor :=
  {| futures := futures ex ++ [{| fut_arg := arg; fut_state := None |}];
     pool_log := pool_log ex |}.

(** A worker brings future [i] to completion, if it is still pending. *)
Definition complete (fn : string → Py QueryJob) (i : nat) (ex : Executor)
  : Executor :=
  match futures ex !! i with
  | Some {| fut_arg := arg; fut_state := None |} =>
      let r := fn arg in
      {| futures := <[i := {| fut_arg := arg; fut_state := Some r |}]> (futures ex);
         pool_log := pool_log ex ++ trace r |}
  | _ => ex
  end.

(** [future.result()] of a finished future. *)
Definition future_result (ex : Executor) (i : nat) : option (outcome QueryJob) :=
  f ← futures ex !! i;
  r ← fut_state f;
  Some (result r).

Fixpoint insert_at {A} (k : nat) (x : A) (l : list A) : list A :=
  match k, l with
  | S k', y :: l' => y :: insert_at k' x l'
  | _, _ => x :: l
  end.

(** [as_completed(fs)] yields the futures in an order the program does not
    control. The schedule picks it: [fs] in any order is [as_completed]
    of some schedule. *)
Fixpoint as_completed (schedule : list nat) (fs : list nat) : list nat :=
  match fs with
  | [] => []
  | f :: rest => insert_at (hd 0 schedule) f (as_completed (tl schedule) rest)
  end.

(** [for future in <order>: future.result()]: the loop waits for each
    future it is handed and stops at the first exception. *)
Fixpoint for_each_result (fn : string → Py QueryJob) (order : list nat)
  (ex : Executor) : Executor * outcome unit :=
  match order with
  | [] => (ex, Returned tt)
  | i :: rest =>
      let ex' := complete fn i ex in
      match future_result ex' i with
      | Some (Raised e) => (ex', Raised e)
      | _ => for_each_result fn rest ex'
      end
  end.

(** Leaving the [with] block: [shutdown(wait=True)] lets every queued call
    run before control continues. *)
Definition shutdown_wait (fn : string → Py QueryJob) (ex : Executor) : Executor :=
  fold_left (λ ex i, complete fn i ex) (seq 0 (length (futures ex))) ex.

(** The pool of [run_all_models] when the function is left, and whether
    the function returns or raises. *)
Definition run_all_models_pool (w : World) (self : BigQueryDryRunner)
  (schedule : list nat) : Executor * outcome unit :=
  let dbt_compiled_models := _get_compiled_models w self in
  let fn := λ arg, run_from_model w self (PStr arg) ∅ in
  let executor :=
    fold_left (λ ex node, submit ex (str node)) dbt_compiled_models new_executor in
  let '(executor, r) :=
    for_each_result fn
      (as_completed schedule (seq 0 (length (futures executor)))) executor in
  (shutdown_wait fn executor, r).

Definition run_all_models (w : World) (self : BigQueryDryRunner)
  (schedule : list nat) : Py unit :=
  let '(executor, r) := run_all_models_pool w self schedule in
  (pool_log executor, r).

Definition run_from_model_name (w : World) (self : BigQueryDryRunner)
  (model_name : string) (opts : gmap string string) : Py unit :=
  raise (NotImplementedError
           "This method is not implemented yet for BigQueryDryRunner").

End DryRun.

(** ** hooks.py *)

Module Hooks.
Import Pathlib Py DryRun.

Definition dry_run_incremental_models (w : World) (schedule : list nat)
  : Py unit :=
  dry_runner ← __init__ w "c4-links-ecollab-dev" (Some "incremental") "EU";
  run_all_models w dry_runner schedule.

Definition dry_run_full_refresh_models (w : World) (schedule : list nat)
  : Py unit :=
  print "Running full refresh models";;
  dry_runner ← __init__ w "c4-links-ecollab-dev" (Some "full_refresh") "EU";
  run_all_models w dry_runner schedule.

(** [sys.argv[i]]. *)
Definition argv_getitem (argv : list string) (i : nat) : Py string :=
  match argv !! i with
  | Some a => mret a
  | None => raise IndexError
  end.

Definition sys_exit {A} (code : Z) : Py A := raise (SystemExit code).

Definition usage_message : string :=
  "Please provide a valid argument: `incremental` or `full_refresh`".

(** The body of [if __name__ == "__main__":]. The two schedules are those
    of the first and of the second pool the script may start. *)
Definition main (w : World) (schedule1 schedule2 : list nat)
  (argv : list string) : Py unit :=
  dry_run_incremental_models w schedule1;;
  a ← argv_getitem argv 1;
  if String.eqb a "incremental" then dry_run_incremental_models w schedule2
  else
    b ← argv_getitem argv 1;
    if String.eqb b "full_refresh" then dry_run_full_refresh_models w schedule2
    else
      print usage_message;;
      sys_exit 1.

(** The exit status the interpreter gives the process: 0 when the script
    runs to its end, the argument of [sys.exit], 1 for any other uncaught
    exception. *)
Definition exit_status (r : outcome unit) : Z :=
  match r with
  | Returned _ => 0
  | Raised (SystemExit code) => code
  | Raised _ => 1
  end.

(** The uncaught exception whose traceback the interpreter writes to
    standard error; [SystemExit] is silent. *)
Definition stderr_traceback (r : outcome unit) : option exn :=
  match r with
  | Returned _ => None
  | Raised (SystemExit _) => None
  | Raised e => Some e
  end.

(** What [print] wrote to standard output. *)
Definition stdout (t : list event) : list string :=
  omap (λ ev, match ev with EPrint msg => Some msg | _ => None end) t.

End Hooks.

(** ** Vocabulary of the statements *)

Module Notions.
Import Pathlib Py DryRun.

(** The job configuration [run] and [run_from_model] build from [opts]. *)
Definition dry_run_config (opts : gmap string string) : QueryJobConfig :=
  {| dry_run := true; properties := opts |}.

Definition is_query (ev : event) : bool :=
  match ev with EQuery _ _ => true | _ => false end.

Definition is_log (ev : event) : bool :=
  match ev with ELog _ _ => true | _ => false end.

(** The remote requests and the log lines of a trace. *)
Definition requests (t : list event) : list event := List.filter is_query t.
Definition log_lines (t : list event) : list event := List.filter is_log t.

Definition valid_message (label : Path) : string :=
  "Model " ++ str label ++ " is valid.".

Definition invalid_message (label : Path) (msg : string) : string :=
  "Error running the dry run for model " ++ str label
    ++ ". The sever returned an error: " ++ msg.

Definition invalid_query_message (msg : string) : string :=
  "Error running the dry run for provided query. The sever returned an error: "
    ++ msg.

(** One call of the pool: [run_from_model] on [str(node)] without options. *)
Definition unit_of (w : World) (self : BigQueryDryRunner) (arg : string)
  : Py QueryJob :=
  run_from_model w self (PStr arg) ∅.

(** The future of a call that has finished. *)
Definition finished_future (w : World) (self : BigQueryDryRunner) (node : Path)
  : Future :=
  {| fut_arg := str node; fut_state := Some (unit_of w self (str node)) |}.

(** The SQL of a model file is accepted, resp. rejected, by the service. *)
Definition accepted_model (w : World) (self : BigQueryDryRunner) (node : Path)
  (job : QueryJob) : Prop :=
  ∃ sql, fs_lookup w (str node) = Some (File (Some sql)) ∧
         client_query w (client self) sql (dry_run_config ∅) = Accepted job.

Definition rejected_model (w : World) (self : BigQueryDryRunner) (node : Path)
  (errors : list error_entry) : Prop :=
  ∃ sql, fs_lookup w (str node) = Some (File (Some sql)) ∧
         client_query w (client self) sql (dry_run_config ∅) = Rejected errors.

(** The pool holds one future for each submitted argument, in order, each
    either pending or finished with the outcome of its own call. *)
Definition tracks (fn : string → Py QueryJob) (args : list string)
  (ex : Executor) : Prop :=
  Forall2
    (λ arg f, fut_arg f = arg ∧
              (fut_state f = None ∨ fut_state f = Some (fn arg)))
    args (futures ex).

Definition finished_with (fn : string → Py QueryJob) (arg : string) : Future :=
  {| fut_arg := arg; fut_state := Some (fn arg) |}.

(** The events of a future: those of its call once it has finished. *)
Definition future_trace (f : Future) : list event :=
  match fut_state f with
  | Some r => trace r
  | None => []
  end.

(** A call is reported when it wrote a log line or when its exception is
    the one [run_all_models] raises. *)
Definition reported (r : outcome unit) (f : Future) : Prop :=
  ∃ t o, fut_state f = Some (t, o) ∧
         (log_lines t ≠ [] ∨ ∃ e, o = Raised e ∧ r = Raised e).

Definition no_silent_drop (pool : Executor * outcome unit) : Prop :=
  Forall (reported (snd pool)) (futures (fst pool)).

(** The directory can be listed. *)
Definition listable (w : World) (dir : Path) : bool :=
  match fs_lookup w (str dir) with
  | Some (Dir true _) => true
  | _ => false
  end.

(** A configuration error that comes before any remote request. *)
Definition fails_before_any_request (r : Py QueryJob) : Prop :=
  result r = Raised ValueError ∧ requests (trace r) = [].

(** The exception [open(path, "r").read()] raises, if it raises. *)
Definition open_error (w : World) (path : string) : option exn :=
  match fs_lookup w path with
  | None => Some (FileNotFoundError path)
  | Some (Dir _ _) => Some (IsADirectoryError path)
  | Some (File None) => Some (PermissionError path)
  | Some (File (Some _)) => None
  end.

(** Every remote request of the trace asks for a dry run. *)
Definition dry_runs_only (t : list event) : Prop :=
  ∀ sql cfg, In (EQuery sql cfg) t → dry_run cfg = true.

(** The paths the trace opened. *)
Definition opened (t : list event) : list string :=
  omap (λ ev, match ev with EOpen path => Some path | _ => None end) t.

(** The first exception the loop over the results meets: [outs] are the
    outcomes of the calls in the order of submission, [order] the order in
    which the futures are handed to the loop. *)
Fixpoint first_raised (outs : list (outcome QueryJob)) (order : list nat)
  : option exn :=
  match order with
  | [] => None
  | i :: rest =>
      match outs !! i with
      | Some (Raised e) => Some e
      | _ => first_raised outs rest
      end
  end.

(** How a loop ends whose first exception, if any, is [first]. *)
Definition ends_with (first : option exn) : outcome unit :=
  match first with
  | Some e => Raised e
  | None => Returned tt
  end.

(** The outcomes of the calls of a batch, in the order of submission. *)
Definition batch_outcomes (w : World) (self : BigQueryDryRunner)
  : list (outcome QueryJob) :=
  (λ node, result (unit_of w self (str node))) <$> _get_compiled_models w self.

(** Why the operating system finds nothing at a path name: a component is
    missing, a component that should be a directory is a file, or a
    directory on the way cannot be searched. *)
Inductive lookup_failure : Type := ENOENT | ENOTDIR | EACCES.

Fixpoint walk_failure (stack : list node) (cur : node) (segs : list string)
  : option lookup_failure :=
  match segs with
  | [] => None
  | s :: rest =>
      match cur with
      | File _ => Some ENOTDIR
      | Dir readable entries =>
          if negb readable then Some EACCES
          else if String.eqb s ".." then
            match stack with
            | [] => walk_failure [] cur rest
            | parent :: stack' => walk_failure stack' parent rest
            end
          else
            match assoc s entries with
            | Some n => walk_failure (cur :: stack) n rest
            | None => Some ENOENT
            end
      end
  end.

Definition fs_failure (w : World) (name : string) : option lookup_failure :=
  let p := Path_of_str name in
  walk_failure [] (fs_root w)
    (strip_root (if is_absolute p then p else cwd w ++ p)).

(** The directory is absent or cannot be listed, in a way [is_dir] and
    [scandir] answer without an error that [rglob] lets through: the name
    leads nowhere because a component is missing or is a file, or it leads
    to a file, or to a directory that cannot be listed. A name that leads
    through a directory that cannot be searched is not of this kind. *)
Definition absent_or_unlistable (w : World) (dir : Path) : bool :=
  match fs_lookup w (str dir) with
  | Some (Dir true _) => false
  | Some _ => true
  | None =>
      match fs_failure w (str dir) with
      | Some EACCES => false
      | _ => true
      end
  end.

(** The computation does not end in [SystemExit]. *)
Definition never_exits {A} (m : Py A) : Prop :=
  ∀ code, result m ≠ Raised (SystemExit code).

(** The command-line argument names one of the two operations. *)
Definition names_operation (argv : list string) : bool :=
  match argv !! 1 with
  | Some a => String.eqb a "incremental" || String.eqb a "full_refresh"
  | None => false
  end.

End Notions.

(** ** Concrete worlds *)

Module Scenarios.
Import Pathlib Py DryRun Notions.

Definition job1 : QueryJob := {| job_id := "job-1" |}.

Definition unknown_column : error_entry :=
  {[ "message" := "Unrecognized name: x" ]}.

(** A service that accepts everything but three texts. *)
Definition service (c : Client) (sql : string) (cfg : QueryJobConfig) : response :=
  if String.eqb sql "select x" then Rejected [unknown_column]
  else if String.eqb sql "select 403" then Failed Forbidden
  else if String.eqb sql "select 503" then Failed ServiceUnavailable
  else Accepted job1.

Definition load (text : string) : option ydoc :=
  if String.eqb text "name: shop" then Some (YDict {[ "name" := YStr "shop" ]})
  else None.

(** [/repo] with the project file, a stray model outside any [models]
    directory, and the compiled models of one sub-target. *)
Definition repo (label : string) (models : list (string * node)) : node :=
  Dir true
    [("repo",
      Dir true
        [("dbt_project.yml", File (Some "name: shop"));
         ("x", Dir true [("a.sql", File (Some "select 1"))]);
         ("target",
          Dir true
            [(label,
              Dir true
                [("compiled",
                  Dir true [("shop", Dir true [("models", Dir true models)])])])])])].

Definition world_of (root : node) : World :=
  {| fs_root := root;
     cwd := ["/"; "repo"];
     yaml_safe_load := load;
     client_init := λ _ _, None;
     client_query := service |}.

(** One valid model and one the service rejects. *)
Definition w_mixed : World :=
  world_of (repo "incremental"
              [("a.sql", File (Some "select 1"));
               ("b", Dir true [("bad.sql", File (Some "select x"))]);
               ("notes.txt", File (Some "not a model"))]).

(** Two valid models. *)
Definition w_valid : World :=
  world_of (repo "incremental"
              [("a.sql", File (Some "select 1"));
               ("b", Dir true [("c.sql", File (Some "select 2"))])]).

(** Two models, the service fails on both, in two different ways. *)
Definition w_outage : World :=
  world_of (repo "incremental"
              [("a.sql", File (Some "select 503"));
               ("b.sql", File (Some "select 403"))]).

(** The project was never compiled: there is no [target] directory. *)
Definition w_uncompiled : World :=
  world_of (Dir true
              [("repo", Dir true [("dbt_project.yml", File (Some "name: shop"))])]).

(** The runner [BigQueryDryRunner(project="p", dbt_target_dir="incremental")]
    in these worlds. *)
Definition runner : BigQueryDryRunner :=
  {| client := {| client_project := "p"; client_location := "EU" |};
     dbt_project_config := YDict {[ "name" := YStr "shop" ]};
     root_path := ["/"; "repo"];
     dbt_target_dir :=
       ["/"; "repo"; "target"; "incremental"; "compiled"; "shop"; "models"] |}.

End Scenarios.

(** * Facts *)

(** ** pathlib *)

Module PathlibFacts.
Import Pathlib.

Lemma split_slash_nonempty s : split_slash s ≠ [].
Proof.
  destruct s as [|a s]; simpl; [discriminate|].
  destruct (Ascii.eqb a slash); [discriminate|].
  destruct (split_slash s); discriminate.
Qed.

(** Splitting is a homomorphism for concatenation around a slash. *)
Lemma split_slash_app a b :
  split_slash (a +:+ "/" +:+ b) = (split_slash a ++ split_slash b)%list.
Proof.
  induction a as [|c a IH]; simpl; [reflexivity|].
  destruct (Ascii.eqb c slash); simpl.
  - now rewrite <- IH.
  - change (a +:+ String "/" b) with (a +:+ "/" +:+ b). rewrite IH.
    pose proof (split_slash_nonempty a) as Hne.
    destruct (split_slash a); [contradiction|reflexivity].
Qed.

Lemma split_slash_no_slash s : has_slash s = false → split_slash s = [s].
Proof.
  induction s as [|c s IH]; simpl; [reflexivity|].
  destruct (Ascii.eqb c slash); simpl; [discriminate|].
  intros H. now rewrite (IH H).
Qed.

Lemma split_slash_parts s : Forall (λ x, has_slash x = false) (split_slash s).
Proof.
  induction s as [|c s IH]; simpl.
  - constructor; [reflexivity|constructor].
  - destruct (Ascii.eqb c slash) eqn:Hc.
    + constructor; [reflexivity|exact IH].
    + destruct (split_slash s) as [|h t]; simpl.
      * constructor; [simpl; now rewrite Hc|constructor].
      * inversion IH; subst. constructor; [simpl; now rewrite Hc|assumption].
Qed.

Lemma clean_keep x : clean x = true → keep_segment x = true.
Proof. unfold clean. intros H. now apply andb_prop in H. Qed.

Lemma clean_no_slash x : clean x = true → has_slash x = false.
Proof.
  unfold clean. intros H. apply andb_prop in H as [_ H].
  now apply negb_true_iff in H.
Qed.

Lemma clean_not_root x : clean x = true → is_root x = false.
Proof.
  intros H. apply clean_no_slash in H. unfold is_root.
  destruct (String.eqb_spec x "/") as [->|_]; [discriminate|].
  destruct (String.eqb_spec x "//") as [->|_]; [discriminate|reflexivity].
Qed.

Lemma clean_not_starts_with_slash x :
  has_slash x = false → starts_with_slash x = false.
Proof.
  destruct x as [|c x]; simpl; [reflexivity|].
  intros H. now apply orb_false_iff in H as [H _].
Qed.

Lemma is_root_cases r : is_root r = true → r = "/" ∨ r = "//".
Proof.
  unfold is_root. intros H. apply orb_prop in H as [H|H];
    apply String.eqb_eq in H; auto.
Qed.

Lemma filter_keep_split_clean (l : list string) :
  forallb clean l = true →
  List.filter keep_segment (split_slash (join_slash l)) = l.
Proof.
  induction l as [|x l IH]; intros Hl; [reflexivity|].
  simpl in Hl. apply andb_prop in Hl as [Hx Hl].
  destruct l as [|y l].
  - simpl. rewrite (split_slash_no_slash x (clean_no_slash x Hx)). simpl.
    now rewrite (clean_keep x Hx).
  - change (join_slash (x :: y :: l)) with (x +:+ "/" +:+ join_slash (y :: l)).
    rewrite split_slash_app, (split_slash_no_slash x (clean_no_slash x Hx)).
    simpl app. cbn [List.filter]. rewrite (clean_keep x Hx).
    f_equal. now apply IH.
Qed.

Lemma join_slash_not_starts_with_slash (l : list string) :
  forallb clean l = true → starts_with_slash (join_slash l) = false.
Proof.
  destruct l as [|x l]; [reflexivity|]. simpl forallb.
  intros H. apply andb_prop in H as [Hx _].
  pose proof (clean_keep x Hx) as Hk.
  pose proof (clean_not_starts_with_slash x (clean_no_slash x Hx)) as Hs.
  destruct x as [|c x]; [discriminate|].
  destruct l; simpl in *; assumption.
Qed.

(** A parsed path is in normal form. *)
Lemma wf_Path_of_str s : wf_path (Path_of_str s) = true.
Proof.
  assert (Hf : forallb clean (List.filter keep_segment (split_slash s)) = true).
  { apply forallb_forall. intros x Hx. apply filter_In in Hx as [Hin Hk].
    unfold clean. rewrite Hk. simpl.
    pose proof (split_slash_parts s) as Hall.
    rewrite Forall_forall in Hall.
    apply list_elem_of_In in Hin. now rewrite (Hall x Hin). }
  unfold Path_of_str.
  destruct (starts_with_slash s) eqn:Hs.
  - simpl. rewrite Hf, andb_true_r.
    destruct s as [|a s]; [discriminate|]. simpl in Hs.
    apply Ascii.eqb_eq in Hs. subst a.
    destruct s as [|b s]; [reflexivity|].
    simpl. destruct (Ascii.eqb b slash); [|reflexivity].
    destruct (starts_with_slash s); reflexivity.
  - destruct (List.filter keep_segment (split_slash s)) as [|x l]; [reflexivity|].
    simpl in *. apply andb_prop in Hf as [-> ->]. now rewrite orb_true_r.
Qed.

(** [Path(str(p)) == p]. *)
Lemma Path_of_str_str p : wf_path p = true → Path_of_str (str p) = p.
Proof.
  destruct p as [|r t]; [reflexivity|].
  intros H. cbn [wf_path] in H. apply andb_prop in H as [Hr Ht].
  unfold str. destruct (is_root r) eqn:Hroot.
  - pose proof (filter_keep_split_clean t Ht) as Hsplit.
    pose proof (join_slash_not_starts_with_slash t Ht) as Hstart.
    apply is_root_cases in Hroot as [->| ->]; unfold Path_of_str.
    + change (starts_with_slash ("/" +:+ join_slash t)) with true. cbv iota.
      change (split_slash ("/" +:+ join_slash t))
        with ("" :: split_slash (join_slash t)).
      cbn [List.filter keep_segment String.eqb negb andb]. rewrite Hsplit.
      f_equal. destruct (join_slash t) as [|b u]; [reflexivity|].
      simpl in Hstart. simpl. now rewrite Hstart.
    + change (starts_with_slash ("//" +:+ join_slash t)) with true. cbv iota.
      change (split_slash ("//" +:+ join_slash t))
        with ("" :: "" :: split_slash (join_slash t)).
      cbn [List.filter keep_segment String.eqb negb andb]. rewrite Hsplit.
      f_equal. destruct (join_slash t) as [|b u]; [reflexivity|].
      simpl in Hstart. simpl. now rewrite Hstart.
  - simpl in Hr.
    assert (Hall : forallb clean (r :: t) = true) by (simpl; now rewrite Hr, Ht).
    unfold Path_of_str.
    rewrite (join_slash_not_starts_with_slash (r :: t) Hall).
    now apply filter_keep_split_clean.
Qed.

Lemma Path_of_str_clean x : clean x = true → Path_of_str x = [x].
Proof.
  intros Hx. pose proof (Path_of_str_str [x]) as H.
  unfold str in H. rewrite (clean_not_root x Hx) in H.
  apply H. simpl. now rewrite Hx, orb_true_r.
Qed.

Lemma joinpath_clean p x : clean x = true → joinpath p x = (p ++ [x])%list.
Proof.
  intros Hx. unfold joinpath.
  rewrite (clean_not_starts_with_slash x (clean_no_slash x Hx)).
  now rewrite Path_of_str_clean.
Qed.

Lemma fold_joinpath_clean (l acc : list string) :
  forallb clean l = true → fold_left joinpath l acc = (acc ++ l)%list.
Proof.
  revert acc. induction l as [|x l IH]; intros acc H; simpl.
  - now rewrite app_nil_r.
  - simpl in H. apply andb_prop in H as [Hx Hl].
    rewrite (joinpath_clean acc x Hx), (IH _ Hl).
    now rewrite <- app_assoc.
Qed.

(** [Path( *p.parts) == p]. *)
Lemma Path_of_args_parts p : wf_path p = true → Path_of_args p = p.
Proof.
  destruct p as [|r t]; [reflexivity|].
  simpl. intros H. apply andb_prop in H as [Hr Ht].
  unfold Path_of_args. simpl.
  assert (Hfirst : joinpath [] r = [r]).
  { apply orb_prop in Hr as [Hroot|Hclean].
    - apply is_root_cases in Hroot as [->| ->]; reflexivity.
    - now rewrite joinpath_clean. }
  rewrite Hfirst. now apply fold_joinpath_clean.
Qed.

Lemma wf_path_drop p n : wf_path p = true → wf_path (drop n p) = true.
Proof.
  destruct n as [|n]; [now rewrite drop_0|].
  destruct p as [|r t]; [reflexivity|]. simpl.
  intros H. apply andb_prop in H as [_ Ht].
  assert (Hd : forallb clean (drop n t) = true).
  { apply forallb_forall. intros x Hx.
    rewrite forallb_forall in Ht. apply Ht.
    apply list_elem_of_In. apply list_elem_of_In in Hx.
    apply (subseteq_drop n t), Hx. }
  destruct (drop n t) as [|y l]; [reflexivity|].
  simpl in *. apply andb_prop in Hd as [-> ->]. now rewrite orb_true_r.
Qed.

(** [index] finds the first occurrence and splits the tuple there. *)
Lemma index_Some x l i :
  index x l = Some i →
  ∃ pre post, l = (pre ++ x :: post)%list ∧ ¬ In x pre ∧ length pre = i
              ∧ drop i l = x :: post.
Proof.
  revert i. induction l as [|y l IH]; intros i; simpl; [discriminate|].
  destruct (String.eqb_spec y x) as [->|Hne].
  - intros [= <-]. exists [], l. repeat split; auto.
  - destruct (index x l) as [j|] eqn:Hj; simpl; [|discriminate].
    intros [= <-]. destruct (IH j eq_refl) as (pre & post & -> & Hpre & Hlen & Hdrop).
    exists (y :: pre), post. repeat split; simpl; auto.
    intros [H|H]; [now apply Hne|now apply Hpre].
Qed.

Lemma index_None x l : index x l = None ↔ ¬ In x l.
Proof.
  induction l as [|y l IH]; simpl; [tauto|].
  destruct (String.eqb_spec y x) as [->|Hne].
  - split; [discriminate|]. intros H. exfalso. apply H. now left.
  - destruct (index x l); simpl.
    + split; [discriminate|]. intros H. exfalso.
      destruct IH as [_ IH]. assert (Hn : ¬ In x l) by tauto.
      specialize (IH Hn). discriminate.
    + split; [|reflexivity]. intros _ [H|H]; [now apply Hne|].
      destruct IH as [IH _]. now apply IH.
Qed.

(** A component of a tuple is still a component after [Path(str(p))]: no
    normal form is needed for this. *)
Lemma In_split_join x (l : list string) :
  has_slash x = false → In x l → In x (split_slash (join_slash l)).
Proof.
  intros Hx. induction l as [|y l IH]; [intros []|].
  intros Hin. destruct l as [|z l].
  - destruct Hin as [->|[]]. simpl.
    rewrite (split_slash_no_slash x Hx). now left.
  - change (join_slash (y :: z :: l)) with (y +:+ "/" +:+ join_slash (z :: l)).
    rewrite split_slash_app. apply in_or_app.
    destruct Hin as [->|Hin].
    + left. rewrite (split_slash_no_slash x Hx). now left.
    + right. now apply IH.
Qed.

Lemma In_Path_of_str_str x p :
  clean x = true → In x p → In x (Path_of_str (str p)).
Proof.
  intros Hx Hin.
  pose proof (clean_no_slash x Hx) as Hns.
  assert (Hgoal : ∀ s, In x (split_slash s) → In x (Path_of_str s)).
  { intros s Hs. unfold Path_of_str.
    assert (In x (List.filter keep_segment (split_slash s)))
      by (apply filter_In; split; [assumption|now apply clean_keep]).
    destruct (starts_with_slash s); [now right|assumption]. }
  apply Hgoal. destruct p as [|r t]; [destruct Hin|].
  simpl. destruct (is_root r) eqn:Hroot.
  - destruct Hin as [->|Hin];
      [rewrite (clean_not_root x Hx) in Hroot; discriminate|].
    apply is_root_cases in Hroot as [->| ->].
    + change (split_slash ("/" +:+ join_slash t))
        with ("" :: split_slash (join_slash t)).
      right. now apply In_split_join.
    + change (split_slash ("//" +:+ join_slash t))
        with ("" :: "" :: split_slash (join_slash t)).
      right; right. now apply In_split_join.
  - now apply (In_split_join x (r :: t)).
Qed.

End PathlibFacts.

(** ** dry_run.py: the methods that do not touch the pool *)

Module DryRunFacts.
Import Pathlib Py DryRun Notions Scenarios PathlibFacts.

(** Unfolds the monad of a goal down to pairs of traces and outcomes. *)
Ltac py_unfold :=
  unfold mbind, mret, Py_bind, Py_ret, bind, ret, raise, emit, logging_info,
    logging_error, print, trace, result in *.

(** Finds a given element in a concrete list. *)
Ltac in_list := vm_compute; repeat (first [left; reflexivity | right]).

Lemma trim_path_from_found self path post (pre : list string) :
  wf_path path = true → path = (pre ++ "models" :: post)%list →
  ¬ In "models" pre →
  _trim_path_from self path "models" = ([], Returned ("models" :: post)).
Proof.
  intros Hwf -> Hpre. unfold _trim_path_from.
  destruct (index "models" (pre ++ "models" :: post)) as [i|] eqn:Hi.
  - destruct (index_Some _ _ _ Hi) as (pre' & post' & Heq & Hpre' & Hlen & Hdrop).
    rewrite Path_of_args_parts by now apply wf_path_drop.
    rewrite Hdrop. py_unfold. do 3 f_equal.
    assert (Hsame : pre = pre').
    { clear -Heq Hpre Hpre'. revert pre' Heq Hpre'.
      induction pre as [|a pre IH]; intros [|b pre']; simpl; intros Heq Hpre'.
      - reflexivity.
      - injection Heq as <- _. exfalso. apply Hpre'. now left.
      - injection Heq as -> _. exfalso. apply Hpre. now left.
      - injection Heq as -> Heq. f_equal.
        apply IH; [intros H; apply Hpre; now right|assumption|].
        intros H; apply Hpre'; now right. }
    subst pre'. apply app_inv_head in Heq. now injection Heq.
  - apply index_None in Hi. exfalso. apply Hi, in_or_app. right. now left.
Qed.

(** C4, as stated, fails: the label starts at the first component named
    "models", which need not be the models directory of the project. Here
    the path is [.../target/compiled/shop/models/a/b.sql] and the label is
    not [models/a/b.sql], because a directory above is called "models". *)
Lemma earlier_models_component_wins :
  let path :=
    Path_of_str "/home/models/shop/target/compiled/shop/models/a/b.sql" in
  path = (["/"; "home"; "models"; "shop"]
            ++ ["target"; "compiled"; "shop"; "models"; "a"; "b.sql"])%list
  ∧ In "models" path
  ∧ _trim_path_from runner path "models"
    = ([], Returned ["models"; "shop"; "target"; "compiled"; "shop"; "models";
                     "a"; "b.sql"])
  ∧ _trim_path_from runner path "models"
    ≠ ([], Returned ["models"; "a"; "b.sql"]).
Proof.
  cbv zeta. split; [reflexivity|]. split; [in_list|].
  split; [reflexivity|]. discriminate.
Qed.

(** C4, amended. For every path (in the normal form of a parsed path) that
    has a component "models", [_trim_path_from] returns the suffix of the
    path that starts at the first such component: the path splits as
    [pre ++ "models" :: post] with no "models" in [pre], and the reported
    identity is [models/<post>]. So a path
    [<pre>/target/compiled/<project>/models/<rest>] is reported as
    [models/<rest>] when neither a component of [pre] nor the project name
    is "models". *)
Theorem trim_path_from_models_suffix (self : BigQueryDryRunner) (path : Path) :
  wf_path path = true → In "models" path →
  (∃ pre post,
     path = (pre ++ "models" :: post)%list ∧ ¬ In "models" pre ∧
     _trim_path_from self path "models" = ([], Returned ("models" :: post)) ∧
     str ("models" :: post) = join_slash ("models" :: post))
  ∧ (∀ pre project rest,
       path = (pre ++ ["target"; "compiled"; project; "models"] ++ rest)%list →
       ¬ In "models" pre → project ≠ "models" →
       _trim_path_from self path "models" = ([], Returned ("models" :: rest))).
Proof.
  intros Hwf Hin. split.
  - destruct (index "models" path) as [i|] eqn:Hi.
    + destruct (index_Some _ _ _ Hi) as (pre & post & Heq & Hpre & _ & _).
      exists pre, post. repeat split; try assumption.
      now apply (trim_path_from_found self path post pre).
    + apply index_None in Hi. contradiction.
  - intros pre project rest Heq Hpre Hproject.
    apply (trim_path_from_found self path rest
             (pre ++ ["target"; "compiled"; project])%list Hwf).
    + rewrite Heq, <- app_assoc. reflexivity.
    + intros H. apply in_app_or in H as [H|H]; [now apply Hpre|].
      destruct H as [H|[H|[H|[]]]]; try discriminate H. now apply Hproject.
Qed.

Lemma trim_path_from_models_suffix_witness :
  let path := Path_of_str "/home/me/shop/target/compiled/shop/models/a/b.sql" in
  wf_path path = true ∧ In "models" path ∧
  _trim_path_from runner path "models" = ([], Returned ["models"; "a"; "b.sql"]).
Proof.
  intros path. split; [reflexivity|]. split; [in_list|].
  destruct (trim_path_from_models_suffix runner path) as [_ Hlayout];
    [reflexivity|in_list|].
  apply (Hlayout ["/"; "home"; "me"; "shop"] "shop" ["a"; "b.sql"]).
  - reflexivity.
  - intros H. repeat (destruct H as [H|H]; [discriminate H|]). exact H.
  - discriminate.
Defined.

(** The path of the claim, as the program sees it. *)
Example trim_compiled_model :
  (label ← _trim_path_from runner
             (Path_of_str "/home/me/shop/target/compiled/shop/models/a/b.sql")
             "models";
   mret (str label))
  = ([], Returned "models/a/b.sql").
Proof. reflexivity. Qed.

(** The first "models" component counts, also when it is not the last. *)
Example trim_first_models :
  _trim_path_from runner
    (Path_of_str "/home/models/shop/target/compiled/shop/models/a.sql") "models"
  = ([], Returned (Path_of_str
                     "models/shop/target/compiled/shop/models/a.sql")).
Proof. reflexivity. Qed.





(** A project name that is an absolute path replaces the whole layout:
    the hypothesis on the name is needed. *)
Example target_dir_absolute_name :
  _get_dbt_target_dir
    {| client := client runner;
       dbt_project_config := YDict {[ "name" := YStr "/elsewhere" ]};
       root_path := ["/"; "repo"]; dbt_target_dir := [] |} None
  = ([], Returned ["/"; "elsewhere"; "models"]).
Proof. reflexivity. Qed.

(** C8. For every input, [run_from_model_name] raises
    [NotImplementedError] at once: it performs no event at all (no remote
    request, no file access, no log line), and what it raises is neither the
    exception of a rejected query nor that of a failing service. *)
Theorem run_from_model_name_not_implemented (w : World)
  (self : BigQueryDryRunner) (model_name : string) (opts : gmap string string) :
  let r := run_from_model_name w self model_name opts in
  (∃ msg, result r = Raised (NotImplementedError msg))
  ∧ trace r = []
  ∧ (∀ errors, result r ≠ Raised (BadRequest errors))
  ∧ (∀ kind, result r ≠ Raised (GoogleAPICallError kind)).
Proof.
  simpl. repeat split; try discriminate. eexists. reflexivity.
Qed.

(** *** The adapter: [run] and [run_from_model] *)

Lemma open_read_text w path sql :
  fs_lookup w path = Some (File (Some sql)) →
  open_read w path = ([EOpen path], Returned sql).
Proof. intros H. unfold open_read. py_unfold. now rewrite H. Qed.

Lemma open_read_returned w path sql :
  result (open_read w path) = Returned sql →
  fs_lookup w path = Some (File (Some sql)).
Proof.
  unfold open_read. py_unfold.
  destruct (fs_lookup w path) as [[[text|]|]|]; simpl; try discriminate.
  now intros [= ->].
Qed.

Lemma open_read_trace w path : trace (open_read w path) = [EOpen path].
Proof.
  unfold open_read. py_unfold.
  now destruct (fs_lookup w path) as [[[text|]|]|].
Qed.

Lemma run_failed w self sql opts kind :
  opts !! "dry_run" = None →
  client_query w (client self) sql (dry_run_config opts) = Failed kind →
  run w self sql opts
  = ([EQuery sql (dry_run_config opts)], Raised (GoogleAPICallError kind)).
Proof.
  intros Hopts Hq. unfold run, QueryJobConfig_new, query. rewrite Hopts.
  py_unfold. unfold dry_run_config in Hq. now rewrite Hq.
Qed.

Lemma run_error_logged w self sql opts msg :
  In (ELog ERROR msg) (trace (run w self sql opts)) →
  ∃ entry errors m,
    client_query w (client self) sql (dry_run_config opts)
    = Rejected (entry :: errors)
    ∧ entry !! "message" = Some m
    ∧ msg = invalid_query_message m
    ∧ result (run w self sql opts) = Raised (BadRequest (entry :: errors)).
Proof.
  unfold run, QueryJobConfig_new, query, dry_run_config.
  destruct (opts !! "dry_run"); py_unfold; simpl; [tauto|].
  destruct (client_query _ _ _) as [job|errors|kind] eqn:Hq; simpl.
  - intros [H|[H|[]]]; discriminate.
  - unfold first_error_message. destruct errors as [|entry errors]; py_unfold.
    + simpl. intros [H|[]]; discriminate.
    + destruct (entry !! "message") as [m|] eqn:Hm; simpl.
      * intros [H|[H|[]]]; [discriminate|]. injection H as <-.
        now exists entry, errors, m.
      * intros [H|[]]; discriminate.
  - intros [H|[]]; discriminate.
Qed.

Lemma run_from_model_failed w self model_path opts sql kind :
  opts !! "dry_run" = None →
  fs_lookup w (str (as_Path model_path)) = Some (File (Some sql)) →
  client_query w (client self) sql (dry_run_config opts) = Failed kind →
  run_from_model w self model_path opts
  = ([EOpen (str (as_Path model_path)); EQuery sql (dry_run_config opts)],
     Raised (GoogleAPICallError kind)).
Proof.
  intros Hopts Hfile Hq. unfold run_from_model, QueryJobConfig_new, query.
  rewrite (open_read_text _ _ _ Hfile), Hopts.
  py_unfold. unfold dry_run_config in Hq. now rewrite Hq.
Qed.

Lemma run_from_model_error_logged w self model_path opts msg :
  In (ELog ERROR msg) (trace (run_from_model w self model_path opts)) →
  ∃ sql entry errors m label,
    fs_lookup w (str (as_Path model_path)) = Some (File (Some sql))
    ∧ client_query w (client self) sql (dry_run_config opts)
      = Rejected (entry :: errors)
    ∧ entry !! "message" = Some m
    ∧ _trim_path_from self (as_Path model_path) "models" = ([], Returned label)
    ∧ msg = invalid_message label m
    ∧ result (run_from_model w self model_path opts)
      = Raised (BadRequest (entry :: errors)).
Proof.
  unfold run_from_model.
  destruct (open_read w (str (as_Path model_path))) as [t [sql|e]] eqn:Hopen.
  2:{ pose proof (open_read_trace w (str (as_Path model_path))) as Ht.
      rewrite Hopen in Ht. simpl in Ht. subst t. py_unfold. simpl.
      intros [H|[]]; discriminate. }
  assert (Hfile : fs_lookup w (str (as_Path model_path)) = Some (File (Some sql)))
    by (apply open_read_returned; now rewrite Hopen).
  rewrite (open_read_text _ _ _ Hfile) in Hopen. injection Hopen as <-.
  unfold QueryJobConfig_new, query, dry_run_config.
  destruct (opts !! "dry_run"); py_unfold; simpl;
    [intros [H|[]]; discriminate|].
  unfold _trim_path_from.
  destruct (client_query _ _ _) as [job|errors|kind] eqn:Hq; simpl.
  - destruct (index "models" (as_Path model_path)); py_unfold; simpl.
    + intros [H|[H|[H|[]]]]; discriminate.
    + intros [H|[H|[]]]; discriminate.
  - destruct (index "models" (as_Path model_path)) as [i|]; py_unfold; simpl.
    2:{ intros [H|[H|[]]]; discriminate. }
    unfold first_error_message. destruct errors as [|entry errors]; py_unfold.
    + simpl. intros [H|[H|[]]]; discriminate.
    + destruct (entry !! "message") as [m|] eqn:Hm; simpl.
      * intros [H|[H|[H|[]]]]; try discriminate. injection H as <-.
        exists sql, entry, errors, m. eexists.
        repeat split; try eassumption.
      * intros [H|[H|[]]]; discriminate.
  - intros [H|[H|[]]]; discriminate.
Qed.

Lemma run_request w self sql opts sql' cfg :
  In (EQuery sql' cfg) (trace (run w self sql opts)) →
  sql' = sql ∧ cfg = dry_run_config opts ∧ opts !! "dry_run" = None.
Proof.
  unfold run, QueryJobConfig_new, query, first_error_message, dry_run_config.
  destruct (opts !! "dry_run"); py_unfold; simpl; [tauto|].
  destruct (client_query _ _ _) as [job|[|entry errors]|kind]; simpl.
  - intros [[= <- <-]|[H|[]]]; [auto|discriminate].
  - intros [[= <- <-]|[]]; auto.
  - destruct (entry !! "message"); simpl.
    + intros [[= <- <-]|[H|[]]]; [auto|discriminate].
    + intros [[= <- <-]|[]]; auto.
  - intros [[= <- <-]|[]]; auto.
Qed.

Lemma run_from_model_request w self model_path opts sql cfg :
  In (EQuery sql cfg) (trace (run_from_model w self model_path opts)) →
  fs_lookup w (str (as_Path model_path)) = Some (File (Some sql))
  ∧ cfg = dry_run_config opts ∧ opts !! "dry_run" = None.
Proof.
  unfold run_from_model, open_read, QueryJobConfig_new, query, _trim_path_from,
    first_error_message, dry_run_config.
  py_unfold.
  destruct (fs_lookup w (str (as_Path model_path))) as [[[text|]|]|];
    simpl; try (intros [H|[]]; discriminate).
  destruct (opts !! "dry_run"); simpl; [intros [H|[]]; discriminate|].
  destruct (client_query _ _ _) as [job|[|entry errors]|kind]; simpl;
    destruct (index "models" (as_Path model_path)); simpl;
    try destruct (entry !! "message"); simpl;
    intros H; repeat (destruct H as [H|H]; try discriminate H);
    try (injection H as <- <-; auto); try destruct H.
Qed.

Lemma run_rejected w self sql opts entry rest m :
  opts !! "dry_run" = None →
  client_query w (client self) sql (dry_run_config opts) = Rejected (entry :: rest) →
  entry !! "message" = Some m →
  run w self sql opts
  = ([EQuery sql (dry_run_config opts); ELog ERROR (invalid_query_message m)],
     Raised (BadRequest (entry :: rest))).
Proof.
  intros Hopts Hq Hm. unfold run, QueryJobConfig_new, query. rewrite Hopts.
  py_unfold. unfold dry_run_config in Hq. rewrite Hq. simpl. now rewrite Hm.
Qed.

Lemma run_from_model_rejected w self model_path opts sql entry rest m :
  opts !! "dry_run" = None →
  fs_lookup w (str (as_Path model_path)) = Some (File (Some sql)) →
  In "models" (as_Path model_path) →
  client_query w (client self) sql (dry_run_config opts) = Rejected (entry :: rest) →
  entry !! "message" = Some m →
  ∃ label,
    _trim_path_from self (as_Path model_path) "models" = ([], Returned label)
    ∧ run_from_model w self model_path opts
      = ([EOpen (str (as_Path model_path)); EQuery sql (dry_run_config opts);
          ELog ERROR (invalid_message label m)],
         Raised (BadRequest (entry :: rest))).
Proof.
  intros Hopts Hfile Hin Hq Hm.
  unfold run_from_model, QueryJobConfig_new, query, _trim_path_from.
  rewrite (open_read_text _ _ _ Hfile), Hopts.
  destruct (index "models" (as_Path model_path)) as [i|] eqn:Hi;
    [|apply index_None in Hi; contradiction].
  eexists. split; [reflexivity|].
  py_unfold. unfold dry_run_config in Hq. rewrite Hq. simpl. now rewrite Hm.
Qed.

(** C3. For every call of [run] and of [run_from_model], whatever the
    options. (1) When the request was sent and the service fails with
    anything but a 400 response, the call raises that very failure, which
    is not a [BadRequest], right after the request: nothing is logged.
    (2) When the request was sent and the service answers [BadRequest] with
    a first error entry that has a "message", the call writes one error
    line carrying that message and raises that very [BadRequest]; for
    [run_from_model] the line names the label, which the path must have.
    (3) Conversely an error line is written only then: it implies a
    [BadRequest] answer, carries the "message" of its first entry, and the
    call raises that [BadRequest]. *)
Theorem adapter_error_kinds (w : World) (self : BigQueryDryRunner)
  (opts : gmap string string) :
  (∀ sql sql' cfg kind,
     In (EQuery sql' cfg) (trace (run w self sql opts)) →
     client_query w (client self) sql' cfg = Failed kind →
     run w self sql opts = ([EQuery sql' cfg], Raised (GoogleAPICallError kind))
     ∧ log_lines (trace (run w self sql opts)) = []
     ∧ ∀ errors, result (run w self sql opts) ≠ Raised (BadRequest errors))
  ∧ (∀ sql sql' cfg entry rest m,
       In (EQuery sql' cfg) (trace (run w self sql opts)) →
       client_query w (client self) sql' cfg = Rejected (entry :: rest) →
       entry !! "message" = Some m →
       run w self sql opts
       = ([EQuery sql' cfg; ELog ERROR (invalid_query_message m)],
          Raised (BadRequest (entry :: rest))))
  ∧ (∀ sql msg,
       In (ELog ERROR msg) (trace (run w self sql opts)) →
       ∃ entry errors m,
         client_query w (client self) sql (dry_run_config opts)
         = Rejected (entry :: errors)
         ∧ entry !! "message" = Some m
         ∧ msg = invalid_query_message m
         ∧ result (run w self sql opts) = Raised (BadRequest (entry :: errors)))
  ∧ (∀ model_path sql cfg kind,
       In (EQuery sql cfg) (trace (run_from_model w self model_path opts)) →
       client_query w (client self) sql cfg = Failed kind →
       run_from_model w self model_path opts
       = ([EOpen (str (as_Path model_path)); EQuery sql cfg],
          Raised (GoogleAPICallError kind))
       ∧ log_lines (trace (run_from_model w self model_path opts)) = []
       ∧ ∀ errors, result (run_from_model w self model_path opts)
                   ≠ Raised (BadRequest errors))
  ∧ (∀ model_path sql cfg entry rest m,
       In (EQuery sql cfg) (trace (run_from_model w self model_path opts)) →
       In "models" (as_Path model_path) →
       client_query w (client self) sql cfg = Rejected (entry :: rest) →
       entry !! "message" = Some m →
       ∃ label,
         _trim_path_from self (as_Path model_path) "models"
         = ([], Returned label)
         ∧ run_from_model w self model_path opts
           = ([EOpen (str (as_Path model_path)); EQuery sql cfg;
               ELog ERROR (invalid_message label m)],
              Raised (BadRequest (entry :: rest))))
  ∧ (∀ model_path msg,
       In (ELog ERROR msg) (trace (run_from_model w self model_path opts)) →
       ∃ sql entry errors m label,
         fs_lookup w (str (as_Path model_path)) = Some (File (Some sql))
         ∧ client_query w (client self) sql (dry_run_config opts)
           = Rejected (entry :: errors)
         ∧ entry !! "message" = Some m
         ∧ _trim_path_from self (as_Path model_path) "models"
           = ([], Returned label)
         ∧ msg = invalid_message label m
         ∧ result (run_from_model w self model_path opts)
           = Raised (BadRequest (entry :: errors))).
Proof.
  split; [|split; [|split; [|split; [|split]]]].
  - intros sql sql' cfg kind Hsent Hq.
    destruct (run_request _ _ _ _ _ _ Hsent) as (-> & -> & Hopts).
    rewrite (run_failed _ _ _ _ _ Hopts Hq). repeat split; discriminate.
  - intros sql sql' cfg entry rest m Hsent Hq Hm.
    destruct (run_request _ _ _ _ _ _ Hsent) as (-> & -> & Hopts).
    now apply run_rejected.
  - intros sql msg. apply run_error_logged.
  - intros model_path sql cfg kind Hsent Hq.
    destruct (run_from_model_request _ _ _ _ _ _ Hsent) as (Hfile & -> & Hopts).
    rewrite (run_from_model_failed _ _ _ _ _ _ Hopts Hfile Hq).
    repeat split; discriminate.
  - intros model_path sql cfg entry rest m Hsent Hin Hq Hm.
    destruct (run_from_model_request _ _ _ _ _ _ Hsent) as (Hfile & -> & Hopts).
    now apply (run_from_model_rejected w self model_path opts sql entry rest m).
  - intros model_path msg. apply run_from_model_error_logged.
Qed.

Lemma adapter_error_kinds_witness :
  run w_outage runner "select 503" ∅
  = ([EQuery "select 503" (dry_run_config ∅)],
     Raised (GoogleAPICallError ServiceUnavailable))
  ∧ run_from_model w_outage runner
      (PStr "/repo/target/incremental/compiled/shop/models/b.sql") ∅
    = ([EOpen "/repo/target/incremental/compiled/shop/models/b.sql";
        EQuery "select 403" (dry_run_config ∅)],
       Raised (GoogleAPICallError Forbidden))
  ∧ run w_mixed runner "select x" ∅
    = ([EQuery "select x" (dry_run_config ∅);
        ELog ERROR (invalid_query_message "Unrecognized name: x")],
       Raised (BadRequest [unknown_column]))
  ∧ (∃ label,
       run_from_model w_mixed runner
         (PStr "/repo/target/incremental/compiled/shop/models/b/bad.sql") ∅
       = ([EOpen "/repo/target/incremental/compiled/shop/models/b/bad.sql";
           EQuery "select x" (dry_run_config ∅);
           ELog ERROR (invalid_message label "Unrecognized name: x")],
          Raised (BadRequest [unknown_column])))
  ∧ (∃ entry errors,
       client_query w_mixed (client runner) "select x" (dry_run_config ∅)
       = Rejected (entry :: errors)
       ∧ entry !! "message" = Some "Unrecognized name: x").
Proof.
  destruct (adapter_error_kinds w_outage runner ∅)
    as (Hrun & _ & _ & Hmodel & _ & _).
  destruct (adapter_error_kinds w_mixed runner ∅)
    as (_ & Hrej & Hlog & _ & Hmrej & _).
  split; [|split; [|split; [|split]]].
  - apply (Hrun "select 503" "select 503" (dry_run_config ∅) ServiceUnavailable);
      [in_list|reflexivity].
  - apply (Hmodel (PStr "/repo/target/incremental/compiled/shop/models/b.sql")
             "select 403" (dry_run_config ∅) Forbidden); [in_list|reflexivity].
  - apply (Hrej "select x" "select x" (dry_run_config ∅) unknown_column []
             "Unrecognized name: x"); [in_list|reflexivity|reflexivity].
  - destruct (Hmrej
                (PStr "/repo/target/incremental/compiled/shop/models/b/bad.sql")
                "select x" (dry_run_config ∅) unknown_column []
                "Unrecognized name: x") as (label & _ & Hrun');
      [in_list|in_list|reflexivity|reflexivity|].
    now exists label.
  - destruct (Hlog "select x" (invalid_query_message "Unrecognized name: x"))
      as (entry & errors & m & Hq & Hm & Hmsg & _); [in_list|].
    exists entry, errors. split; [exact Hq|].
    change (Rejected [unknown_column] = Rejected (entry :: errors)) in Hq.
    injection Hq as <- <-. reflexivity.
Defined.

(** *** A path without the "models" component *)

Lemma trim_path_from_missing self path :
  ¬ In "models" path →
  _trim_path_from self path "models" = ([], Raised ValueError).
Proof.
  intros H. apply index_None in H. unfold _trim_path_from. now rewrite H.
Qed.

(** The stray model of the scenario: the file is read, the request is
    sent and answered, and only then the call fails on the label. *)
Example stray_model_run :
  run_from_model w_mixed runner (PStr "/repo/x/a.sql") ∅
  = ([EOpen "/repo/x/a.sql"; EQuery "select 1" (dry_run_config ∅)],
     Raised ValueError).
Proof. reflexivity. Qed.

Lemma stray_model_has_no_models :
  ¬ In "models" (as_Path (PStr "/repo/x/a.sql")).
Proof.
  vm_compute. intros H. repeat (destruct H as [H|H]; [discriminate H|]).
  exact H.
Qed.

(** C5, as stated, fails: for a path without "models" the error does not
    come before the remote request. *)
Lemma missing_segment_fails_after_request :
  ¬ In "models" (as_Path (PStr "/repo/x/a.sql"))
  ∧ ¬ fails_before_any_request
        (run_from_model w_mixed runner (PStr "/repo/x/a.sql") ∅).
Proof.
  split; [exact stray_model_has_no_models|].
  intros [_ H]. rewrite stray_model_run in H. discriminate H.
Qed.

(** C5, amended. For every path without a "models" component,
    [_trim_path_from] raises [ValueError] instead of returning a label, and
    [run_from_model] never returns and never writes a log line (so no wrong
    label is reported). The [ValueError] is not raised before the work of
    the call: when [run_from_model] raises it, the file has been read and
    exactly one remote request, for the text of the file, has been sent. *)
Theorem missing_models_segment (w : World) (self : BigQueryDryRunner)
  (model_path : path_arg) (opts : gmap string string) :
  ¬ In "models" (as_Path model_path) →
  _trim_path_from self (as_Path model_path) "models" = ([], Raised ValueError)
  ∧ let r := run_from_model w self model_path opts in
    is_raised (result r) = true
    ∧ log_lines (trace r) = []
    ∧ (result r = Raised ValueError →
       ∃ sql,
         fs_lookup w (str (as_Path model_path)) = Some (File (Some sql))
         ∧ requests (trace r) = [EQuery sql (dry_run_config opts)]).
Proof.
  intros Hmissing. split; [now apply trim_path_from_missing|].
  pose proof Hmissing as Hidx. apply index_None in Hidx.
  cbv zeta. unfold run_from_model, open_read, _trim_path_from.
  rewrite Hidx.
  destruct (fs_lookup w (str (as_Path model_path))) as [[[sql|]|]|];
    py_unfold; simpl; try (repeat split; discriminate).
  unfold QueryJobConfig_new, query.
  destruct (opts !! "dry_run"); py_unfold; simpl;
    [repeat split; discriminate|].
  destruct (client_query _ _ _) as [job|errors|kind]; simpl.
  - repeat split. intros _. now exists sql.
  - repeat split. intros _. now exists sql.
  - repeat split. discriminate.
Qed.

Lemma missing_models_segment_witness :
  _trim_path_from runner (as_Path (PStr "/repo/x/a.sql")) "models"
  = ([], Raised ValueError)
  ∧ is_raised (result (run_from_model w_mixed runner (PStr "/repo/x/a.sql") ∅))
    = true.
Proof.
  destruct (missing_models_segment w_mixed runner (PStr "/repo/x/a.sql") ∅)
    as (Htrim & Hraised & _).
  - exact stray_model_has_no_models.
  - split; [exact Htrim|exact Hraised].
Defined.

End DryRunFacts.

(** ** The thread pool *)

Module PoolFacts.
Import Pathlib Py DryRun Notions Scenarios PathlibFacts.

Section Pool.
Variable fn : string → Py QueryJob.

Lemma tracks_new : tracks fn [] new_executor.
Proof. constructor. Qed.

Lemma tracks_submit args ex arg :
  tracks fn args ex → tracks fn (args ++ [arg]) (submit ex arg).
Proof.
  unfold tracks, submit. simpl. intros H.
  apply Forall2_app; [exact H|].
  constructor; [|constructor]. simpl. auto.
Qed.

Lemma tracks_submit_all (nodes : list Path) args ex :
  tracks fn args ex →
  tracks fn (args ++ (str <$> nodes))
    (fold_left (λ ex node, submit ex (str node)) nodes ex).
Proof.
  revert args ex. induction nodes as [|node nodes IH]; intros args ex H; simpl.
  - now rewrite app_nil_r.
  - rewrite (cons_middle (str node)), app_assoc.
    apply IH. now apply tracks_submit.
Qed.

Lemma tracks_length args ex : tracks fn args ex → length (futures ex) = length args.
Proof. intros H. symmetry. exact (Forall2_length _ _ _ H). Qed.

Lemma tracks_lookup args ex i arg :
  tracks fn args ex → args !! i = Some arg →
  ∃ f, futures ex !! i = Some f ∧ fut_arg f = arg
       ∧ (fut_state f = None ∨ fut_state f = Some (fn arg)).
Proof.
  intros H Hi. destruct (Forall2_lookup_l _ _ _ _ _ H Hi) as (f & Hf & Harg & Hst).
  now exists f.
Qed.

Lemma tracks_complete args ex i :
  tracks fn args ex → tracks fn args (complete fn i ex).
Proof.
  intros H. unfold complete.
  destruct (futures ex !! i) as [[arg [r|]]|] eqn:Hi; try exact H.
  unfold tracks in *. simpl.
  destruct (Forall2_lookup_r _ _ _ _ _ H Hi) as (arg' & Harg' & Heq & _).
  simpl in Heq. subst arg'.
  rewrite <- (list_insert_id args i arg Harg').
  apply Forall2_insert; [exact H|]. simpl. auto.
Qed.

Lemma complete_finishes args ex i arg :
  tracks fn args ex → args !! i = Some arg →
  futures (complete fn i ex) !! i = Some (finished_with fn arg).
Proof.
  intros H Hi.
  destruct (tracks_lookup _ _ _ _ H Hi) as ([a st] & Hf & Harg & Hst).
  simpl in Harg, Hst. subst a. unfold complete. rewrite Hf.
  destruct Hst as [->| ->].
  - simpl. apply list_lookup_insert_eq. now apply lookup_lt_Some in Hf.
  - exact Hf.
Qed.

Lemma complete_keeps_finished ex i j f r :
  futures ex !! j = Some f → fut_state f = Some r →
  futures (complete fn i ex) !! j = Some f.
Proof.
  intros Hj Hr. unfold complete.
  destruct (futures ex !! i) as [[arg [r'|]]|] eqn:Hi; try exact Hj.
  simpl. destruct (decide (i = j)) as [->|Hne].
  - rewrite Hj in Hi. injection Hi as ->. simpl in Hr. discriminate.
  - now rewrite list_lookup_insert_ne.
Qed.

Lemma future_result_finished ex i arg :
  futures ex !! i = Some (finished_with fn arg) →
  future_result ex i = Some (result (fn arg)).
Proof. intros H. unfold future_result. now rewrite H. Qed.

(** The loop over the results: it keeps the pool consistent, returns only
    if every call it waited for returned, and raises only what one of the
    calls raised. *)
Lemma for_each_result_spec args order ex :
  tracks fn args ex →
  (∀ i, In i order → i < length args) →
  let run := for_each_result fn order ex in
  tracks fn args (fst run)
  ∧ (snd run = Returned tt →
     ∀ i arg, In i order → args !! i = Some arg →
              is_raised (result (fn arg)) = false)
  ∧ (∀ e, snd run = Raised e →
          ∃ i arg, In i order ∧ args !! i = Some arg
                   ∧ result (fn arg) = Raised e).
Proof.
  revert ex. induction order as [|i order IH]; intros ex Htr Hrange; simpl.
  - repeat split; [exact Htr|intros _ i arg []|discriminate].
  - assert (Hi : i < length args) by (apply Hrange; now left).
    destruct (lookup_lt_is_Some_2 args i Hi) as [arg Harg].
    pose proof (tracks_complete args ex i Htr) as Htr'.
    rewrite (future_result_finished _ _ arg
               (complete_finishes _ _ _ _ Htr Harg)).
    destruct (result (fn arg)) as [job|e] eqn:Hres.
    + destruct (IH (complete fn i ex) Htr') as (H1 & H2 & H3).
      { intros k Hk. apply Hrange. now right. }
      repeat split; [exact H1| |].
      * intros Hret k a [<-|Hk] Ha.
        -- rewrite Harg in Ha. injection Ha as <-. now rewrite Hres.
        -- now apply (H2 Hret k a).
      * intros e He. destruct (H3 e He) as (k & a & Hk & Ha & Hr).
        exists k, a. repeat split; [now right|assumption|assumption].
    + simpl. repeat split; [exact Htr'|discriminate|].
      intros e' [= <-]. exists i, arg. repeat split; [now left|assumption|assumption].
Qed.

Lemma fold_complete_spec args (l : list nat) ex :
  tracks fn args ex →
  let ex' := fold_left (λ ex i, complete fn i ex) l ex in
  tracks fn args ex'
  ∧ (∀ j f r, futures ex !! j = Some f → fut_state f = Some r →
              futures ex' !! j = Some f)
  ∧ (∀ i arg, In i l → args !! i = Some arg →
              futures ex' !! i = Some (finished_with fn arg)).
Proof.
  revert ex. induction l as [|i l IH]; intros ex Htr; simpl.
  - repeat split; [exact Htr|auto|intros i arg []].
  - destruct (IH (complete fn i ex) (tracks_complete _ _ _ Htr))
      as (H1 & H2 & H3).
    repeat split; [exact H1| |].
    + intros j f r Hj Hr. apply (H2 j f r); [|exact Hr].
      now apply (complete_keeps_finished ex i j f r).
    + intros k arg [<-|Hk] Harg; [|now apply H3].
      apply (H2 i _ (fn arg)); [|reflexivity].
      now apply (complete_finishes args).
Qed.

(** After [shutdown(wait=True)] every future is finished. *)
Lemma shutdown_wait_spec args ex :
  tracks fn args ex →
  futures (shutdown_wait fn ex) = finished_with fn <$> args.
Proof.
  intros Htr. unfold shutdown_wait.
  destruct (fold_complete_spec args (seq 0 (length (futures ex))) ex Htr)
    as (Htr' & _ & Hall).
  apply list_eq. intros i. rewrite list_lookup_fmap.
  destruct (args !! i) as [arg|] eqn:Harg; simpl.
  - apply Hall; [|exact Harg]. apply in_seq.
    rewrite (tracks_length _ _ Htr). apply lookup_lt_Some in Harg. lia.
  - apply lookup_ge_None. apply lookup_ge_None in Harg.
    rewrite (tracks_length _ _ Htr'). exact Harg.
Qed.

(** Whatever holds of the pool and is kept by a worker finishing a call
    is kept by the loop over the results and by the shutdown. *)
Lemma for_each_result_invariant (P : Executor → Prop) :
  (∀ i ex, P ex → P (complete fn i ex)) →
  ∀ order ex, P ex → P (fst (for_each_result fn order ex)).
Proof.
  intros Hstep. induction order as [|i order IH]; intros ex Hex; simpl.
  - exact Hex.
  - destruct (future_result (complete fn i ex) i) as [[job|e]|]; simpl;
      auto using Hstep.
Qed.

Lemma shutdown_wait_invariant (P : Executor → Prop) :
  (∀ i ex, P ex → P (complete fn i ex)) →
  ∀ ex, P ex → P (shutdown_wait fn ex).
Proof.
  intros Hstep ex. unfold shutdown_wait.
  generalize (seq 0 (length (futures ex))). intros l. revert ex.
  induction l as [|i l IH]; intros ex Hex; simpl; auto.
Qed.

(** The log of the pool holds the events of the finished calls, each call
    as one block. *)
Lemma complete_log ex i :
  Permutation (pool_log ex) (concat (future_trace <$> futures ex)) →
  Permutation (pool_log (complete fn i ex))
    (concat (future_trace <$> futures (complete fn i ex))).
Proof.
  intros H. unfold complete.
  destruct (futures ex !! i) as [[arg [r|]]|] eqn:Hi; try exact H.
  simpl. rewrite H.
  rewrite insert_take_drop by now apply lookup_lt_Some in Hi.
  rewrite <- (take_drop_middle (futures ex) i _ Hi) at 1.
  rewrite !fmap_app, !fmap_cons, !concat_app, !concat_cons.
  unfold future_trace at 2 5. simpl.
  rewrite <- app_assoc. apply Permutation_app_head.
  apply Permutation_app_comm.
Qed.

End Pool.

Lemma insert_at_Permutation {A} k (x : A) l : Permutation (insert_at k x l) (x :: l).
Proof.
  revert k. induction l as [|y l IH]; intros [|k]; simpl; try reflexivity.
  rewrite IH. apply perm_swap.
Qed.

(** [as_completed] yields every future exactly once. *)
Lemma as_completed_Permutation schedule fs :
  Permutation (as_completed schedule fs) fs.
Proof.
  revert schedule. induction fs as [|f fs IH]; intros schedule; simpl.
  - reflexivity.
  - rewrite insert_at_Permutation. now constructor.
Qed.

Lemma insert_at_middle {A} (x : A) l1 l2 :
  insert_at (length l1) x (l1 ++ l2) = (l1 ++ x :: l2)%list.
Proof. induction l1 as [|y l1 IH]; simpl; [now destruct l2|now rewrite IH]. Qed.

(** Every order of the futures is the order of some schedule. *)
Lemma as_completed_any_order fs order :
  Permutation order fs → ∃ schedule, as_completed schedule fs = order.
Proof.
  revert order. induction fs as [|f fs IH]; intros order Hperm.
  - apply Permutation_nil_r in Hperm. subst. now exists [].
  - assert (Hin : In f order).
    { apply (Permutation_in f (Permutation_sym Hperm)). now left. }
    destruct (in_split _ _ Hin) as (l1 & l2 & ->).
    apply Permutation_sym, Permutation_cons_app_inv, Permutation_sym in Hperm.
    destruct (IH _ Hperm) as (schedule & Hs).
    exists (length l1 :: schedule). simpl. rewrite Hs.
    apply insert_at_middle.
Qed.

(** [run_all_models]: when the function is left every submitted call has
    finished; it returns exactly when every call returned, and what it
    raises is what one of the calls raised. *)
Lemma run_all_models_pool_spec w self schedule :
  let pool := run_all_models_pool w self schedule in
  let models := _get_compiled_models w self in
  futures (fst pool) = finished_future w self <$> models
  ∧ (snd pool = Returned tt ↔
     ∀ node, In node models →
             is_raised (result (unit_of w self (str node))) = false)
  ∧ (∀ e, snd pool = Raised e →
          ∃ node, In node models ∧ result (unit_of w self (str node)) = Raised e).
Proof.
  cbv zeta. unfold run_all_models_pool.
  set (models := _get_compiled_models w self).
  change (λ arg : string, run_from_model w self (PStr arg) ∅)
    with (unit_of w self).
  set (ex0 := fold_left (λ ex node, submit ex (str node)) models new_executor).
  assert (Htr : tracks (unit_of w self) (str <$> models) ex0)
    by apply (tracks_submit_all (unit_of w self) models [] new_executor
                (tracks_new _)).
  set (order := as_completed schedule (seq 0 (length (futures ex0)))).
  assert (Horder : ∀ i, In i order ↔ i < length (str <$> models)).
  { intros i. rewrite <- (tracks_length _ _ _ Htr). split.
    - intros Hi.
      apply (Permutation_in i (as_completed_Permutation _ _)) in Hi.
      apply in_seq in Hi. lia.
    - intros Hi.
      apply (Permutation_in i (Permutation_sym (as_completed_Permutation _ _))).
      apply in_seq. lia. }
  destruct (for_each_result_spec (unit_of w self) (str <$> models) order ex0 Htr)
    as (Htr' & Hret & Hraise); [intros i Hi; now apply Horder|].
  destruct (for_each_result (unit_of w self) order ex0) as [ex1 o] eqn:Hloop.
  simpl in Htr', Hret, Hraise |- *.
  assert (Hnode : ∀ i arg, (str <$> models) !! i = Some arg →
                            ∃ node, In node models ∧ arg = str node).
  { intros i arg Hi. rewrite list_lookup_fmap in Hi.
    destruct (models !! i) as [node|] eqn:Hn; [|discriminate].
    injection Hi as <-. exists node. split; [|reflexivity].
    apply list_elem_of_In, list_elem_of_lookup. now exists i. }
  split; [|split].
  - rewrite (shutdown_wait_spec _ _ _ Htr'), <- list_fmap_compose. reflexivity.
  - split.
    + intros Ho node Hin.
      apply list_elem_of_In, list_elem_of_lookup in Hin as [i Hi].
      apply (Hret Ho i (str node)).
      * apply Horder. rewrite length_fmap. now apply lookup_lt_Some in Hi.
      * now rewrite list_lookup_fmap, Hi.
    + intros Hall. destruct o as [[]|e]; [reflexivity|].
      destruct (Hraise e eq_refl) as (i & arg & _ & Harg & Hres).
      destruct (Hnode i arg Harg) as (node & Hin & ->).
      specialize (Hall node Hin). rewrite Hres in Hall. discriminate.
  - intros e He. destruct (Hraise e He) as (i & arg & _ & Harg & Hres).
    destruct (Hnode i arg Harg) as (node & Hin & ->). now exists node.
Qed.

Lemma submit_log ex arg :
  Permutation (pool_log ex) (concat (future_trace <$> futures ex)) →
  Permutation (pool_log (submit ex arg))
    (concat (future_trace <$> futures (submit ex arg))).
Proof.
  intros H. unfold submit. simpl.
  rewrite fmap_app, concat_app. simpl. now rewrite !app_nil_r.
Qed.

Lemma run_all_models_pool_log w self schedule :
  let pool := run_all_models_pool w self schedule in
  Permutation (pool_log (fst pool)) (concat (future_trace <$> futures (fst pool))).
Proof.
  cbv zeta. unfold run_all_models_pool.
  set (P := λ ex, Permutation (pool_log ex) (concat (future_trace <$> futures ex))).
  set (fn := λ arg : string, run_from_model w self (PStr arg) ∅).
  assert (Hstart : ∀ nodes ex, P ex →
            P (fold_left (λ ex node, submit ex (str node)) nodes ex)).
  { induction nodes as [|node nodes IH]; intros ex Hex; simpl; [exact Hex|].
    apply IH. now apply submit_log. }
  specialize (Hstart (_get_compiled_models w self) new_executor
                (Permutation_refl _)).
  pose proof (for_each_result_invariant fn P (λ i ex, complete_log fn ex i)
                (as_completed schedule
                   (seq 0 (length (futures
                      (fold_left (λ ex node, submit ex (str node))
                         (_get_compiled_models w self) new_executor)))))
                _ Hstart) as Hloop.
  destruct (for_each_result fn _ _) as [ex1 o]. simpl in *.
  now apply (shutdown_wait_invariant fn P (λ i ex, complete_log fn ex i)).
Qed.

(** The events of [run_all_models] are the events of its calls, the
    events of each call kept together. *)
Lemma run_all_models_trace w self schedule :
  Permutation (trace (run_all_models w self schedule))
    (concat ((λ node, trace (unit_of w self (str node)))
               <$> _get_compiled_models w self)).
Proof.
  pose proof (run_all_models_pool_log w self schedule) as Hlog.
  destruct (run_all_models_pool_spec w self schedule) as (Hfut & _).
  cbv zeta in Hlog, Hfut. rewrite Hfut, <- list_fmap_compose in Hlog.
  unfold run_all_models.
  destruct (run_all_models_pool w self schedule) as [ex o]. exact Hlog.
Qed.

End PoolFacts.

(** ** The batch: discovery, the calls, the result *)

Module BatchFacts.
Import Pathlib Py DryRun Notions Scenarios PathlibFacts DryRunFacts PoolFacts.

Lemma bind_returned {A B} (m : Py A) (k : A → Py B) t b :
  bind m k = (t, Returned b) →
  ∃ t1 a t2, m = (t1, Returned a) ∧ k a = (t2, Returned b).
Proof.
  unfold bind. destruct m as [t1 [a|e]]; [|discriminate].
  destruct (k a) as [t2 o] eqn:Hk. intros [= _ ->]. now exists t1, a, t2.
Qed.

(** Every directory of a walk lies below the directory the walk starts at. *)
Lemma iterate_directories_prefix :
  ∀ n here d, In d (iterate_directories here n) →
              ∃ rel, fst d = (here ++ rel)%list.
Proof.
  fix IH 1. intros [c|r entries] here d; simpl; [intros []|].
  destruct r; [|intros []]. intros [<-|Hin].
  - exists []. simpl. now rewrite app_nil_r.
  - induction entries as [|[name child] entries IHentries];
      simpl in Hin; [destruct Hin|].
    apply in_app_or in Hin as [Hin|Hin].
    + destruct (IH child _ _ Hin) as [rel Hrel]. exists (name :: rel).
      rewrite Hrel. now rewrite <- app_assoc.
    + now apply IHentries.
Qed.

Lemma rglob_prefix w root suffix node :
  In node (rglob w root suffix) → ∃ rel, node = (root ++ rel)%list.
Proof.
  unfold rglob. destruct (fs_lookup w (str root)) as [n|]; [|intros []].
  intros Hin. apply in_flat_map in Hin as (d & Hd & Hnode).
  apply list_elem_of_In, list_elem_of_fmap in Hnode as (e & -> & _).
  destruct (iterate_directories_prefix _ _ _ Hd) as [rel Hrel].
  exists (rel ++ [fst e])%list. unfold Path in *.
  now rewrite Hrel, app_assoc.
Qed.

Lemma compiled_models_below w self node :
  In node (_get_compiled_models w self) →
  ∃ rel, node = (dbt_target_dir self ++ rel)%list.
Proof.
  unfold _get_compiled_models. intros Hin.
  apply filter_In in Hin as [Hin _]. now apply rglob_prefix in Hin.
Qed.

Lemma compiled_models_are_files w self node :
  In node (_get_compiled_models w self) →
  ∃ content, fs_lookup w (str node) = Some (File content).
Proof.
  unfold _get_compiled_models, is_file. intros Hin.
  apply filter_In in Hin as [_ Hfile].
  destruct (fs_lookup w (str node)) as [[content|]|]; try discriminate.
  now exists content.
Qed.

(** The target directory [__init__] computes ends in "models". *)
Lemma target_dir_ends_in_models self target_dir t dir :
  _get_dbt_target_dir self target_dir = (t, Returned dir) →
  ∃ p, dir = (p ++ ["models"])%list.
Proof.
  unfold _get_dbt_target_dir.
  destruct (negb (truthy target_dir)); intros H;
    apply bind_returned in H as (t1 & name & t2 & _ & H);
    apply bind_returned in H as (t3 & p & t4 & _ & H);
    injection H as _ <-; exists p; now apply joinpath_clean.
Qed.

Lemma init_target_dir w project target_dir location self :
  result (__init__ w project target_dir location) = Returned self →
  ∃ p, dbt_target_dir self = (p ++ ["models"])%list.
Proof.
  unfold result. destruct (__init__ w project target_dir location) as [t o] eqn:Hinit.
  simpl. intros ->. unfold __init__ in Hinit.
  apply bind_returned in Hinit as (t1 & c & t2 & _ & Hinit).
  apply bind_returned in Hinit as (t3 & config & t4 & _ & Hinit).
  apply bind_returned in Hinit as (t5 & dir & t6 & Hdir & Hinit).
  injection Hinit as _ <-. simpl.
  now apply target_dir_ends_in_models in Hdir.
Qed.

Lemma compiled_models_have_models w project target_dir location self node :
  result (__init__ w project target_dir location) = Returned self →
  In node (_get_compiled_models w self) → In "models" node.
Proof.
  intros Hinit Hin. destruct (init_target_dir _ _ _ _ _ Hinit) as [p Hp].
  destruct (compiled_models_below _ _ _ Hin) as [rel ->]. rewrite Hp.
  apply in_or_app. left. apply in_or_app. right. now left.
Qed.

(** The operating system finds the same file under [str(Path(name))]. *)
Lemma fs_lookup_normal w name :
  fs_lookup w (str (Path_of_str name)) = fs_lookup w name.
Proof.
  unfold fs_lookup. now rewrite (Path_of_str_str _ (wf_Path_of_str name)).
Qed.

Lemma trim_of_model self node :
  In "models" node →
  ∃ label, _trim_path_from self (Path_of_str (str node)) "models"
           = ([], Returned label).
Proof.
  intros Hin. apply (In_Path_of_str_str "models" node eq_refl) in Hin.
  unfold _trim_path_from.
  destruct (index "models" (Path_of_str (str node))) as [i|] eqn:Hi.
  - eexists. reflexivity.
  - apply index_None in Hi. contradiction.
Qed.

(** A call of the pool on a model the service accepts. *)
Lemma unit_accepted w self node job :
  In "models" node → accepted_model w self node job →
  ∃ label sql,
    unit_of w self (str node)
    = ([EOpen (str (Path_of_str (str node))); EQuery sql (dry_run_config ∅);
        ELog INFO (valid_message label)], Returned job).
Proof.
  intros Hin (sql & Hfile & Hq).
  destruct (trim_of_model self node Hin) as [label Hlabel].
  exists label, sql. unfold unit_of, run_from_model, as_Path.
  rewrite <- fs_lookup_normal in Hfile.
  rewrite (open_read_text _ _ _ Hfile), Hlabel.
  unfold QueryJobConfig_new, query. rewrite lookup_empty.
  py_unfold. unfold dry_run_config in Hq. now rewrite Hq.
Qed.

(** A call of the pool on a model the service rejects. *)
Lemma unit_rejected w self node errors :
  In "models" node → rejected_model w self node errors →
  is_raised (result (unit_of w self (str node))) = true
  ∧ (∀ entry rest m, errors = entry :: rest → entry !! "message" = Some m →
       ∃ label sql,
         unit_of w self (str node)
         = ([EOpen (str (Path_of_str (str node)));
             EQuery sql (dry_run_config ∅);
             ELog ERROR (invalid_message label m)],
            Raised (BadRequest errors))).
Proof.
  intros Hin (sql & Hfile & Hq).
  destruct (trim_of_model self node Hin) as [label Hlabel].
  unfold unit_of, run_from_model, as_Path.
  rewrite <- fs_lookup_normal in Hfile.
  rewrite (open_read_text _ _ _ Hfile), Hlabel.
  unfold QueryJobConfig_new, query. rewrite lookup_empty.
  py_unfold. unfold dry_run_config in Hq. rewrite Hq. simpl.
  unfold first_error_message. split.
  - destruct errors as [|entry rest]; [reflexivity|].
    now destruct (entry !! "message").
  - intros entry rest m -> Hm. rewrite Hm. now exists label, sql.
Qed.

Lemma filter_length_Permutation {A} (f : A → bool) (l l' : list A) :
  Permutation l l' → length (List.filter f l) = length (List.filter f l').
Proof.
  induction 1 as [|x l l' _ IH|x y l|l l' l'' _ IH1 _ IH2]; simpl.
  - reflexivity.
  - destruct (f x); simpl; now rewrite IH.
  - destruct (f x), (f y); reflexivity.
  - now rewrite IH1.
Qed.

Lemma filter_length_concat {A B} (f : B → bool) (g : A → list B) (l : list A) :
  (∀ a, In a l → length (List.filter f (g a)) = 1) →
  length (List.filter f (concat (g <$> l))) = length l.
Proof.
  induction l as [|a l IH]; intros H; [reflexivity|].
  rewrite fmap_cons, concat_cons, List.filter_app, length_app.
  rewrite (H a) by now left.
  rewrite IH; [reflexivity|]. intros b Hb. apply H. now right.
Qed.

Lemma run_all_models_result w self schedule :
  result (run_all_models w self schedule)
  = snd (run_all_models_pool w self schedule).
Proof.
  unfold run_all_models. now destruct (run_all_models_pool w self schedule).
Qed.

Lemma run_all_models_empty w self schedule :
  _get_compiled_models w self = [] →
  run_all_models w self schedule = ([], Returned tt).
Proof.
  intros H. unfold run_all_models, run_all_models_pool. now rewrite H.
Qed.

(** Building the runner succeeds in the worlds of the scenarios. *)
Lemma init_runner (root : node) :
  fs_lookup (world_of root) "dbt_project.yml" = Some (File (Some "name: shop")) →
  result (__init__ (world_of root) "p" (Some "incremental") "EU")
  = Returned runner.
Proof.
  intros Hfile. unfold __init__, Client_new, _get_dbt_project_config.
  cbn [truthy]. cbv iota.
  change (str (joinpath (Path_of_str ".") "dbt_project.yml"))
    with "dbt_project.yml".
  now rewrite (open_read_text _ _ _ Hfile).
Qed.

(** The two models of [w_mixed], of [w_valid] and of [w_outage]. *)
Example models_mixed :
  _get_compiled_models w_mixed runner
  = [dbt_target_dir runner ++ ["a.sql"];
     dbt_target_dir runner ++ ["b"; "bad.sql"]]%list.
Proof. reflexivity. Qed.

Example models_valid :
  _get_compiled_models w_valid runner
  = [dbt_target_dir runner ++ ["a.sql"];
     dbt_target_dir runner ++ ["b"; "c.sql"]]%list.
Proof. reflexivity. Qed.

Example models_outage :
  _get_compiled_models w_outage runner
  = [dbt_target_dir runner ++ ["a.sql"];
     dbt_target_dir runner ++ ["b.sql"]]%list.
Proof. reflexivity. Qed.

(** In [w_outage] both calls fail; only the failure of the first one the
    loop looks at leaves [run_all_models], and no line is logged. *)
Example outage_run :
  run_all_models w_outage runner []
  = ([EOpen "/repo/target/incremental/compiled/shop/models/a.sql";
      EQuery "select 503" (dry_run_config ∅);
      EOpen "/repo/target/incremental/compiled/shop/models/b.sql";
      EQuery "select 403" (dry_run_config ∅)],
     Raised (GoogleAPICallError ServiceUnavailable)).
Proof. reflexivity. Qed.

(** C1, as stated, fails: with two calls that fail without a log line, the
    outcome of one of them is reported nowhere. *)
Lemma outage_drops_a_failure :
  ¬ no_silent_drop (run_all_models_pool w_outage runner []).
Proof.
  unfold no_silent_drop. intros H.
  change (run_all_models_pool w_outage runner [])
    with ({| futures :=
               [finished_future w_outage runner (dbt_target_dir runner ++ ["a.sql"]);
                finished_future w_outage runner (dbt_target_dir runner ++ ["b.sql"])];
             pool_log := trace (run_all_models w_outage runner []) |},
          @Raised unit (GoogleAPICallError ServiceUnavailable)) in H.
  simpl in H. apply Forall_cons in H as [_ H]. apply Forall_cons in H as [H _].
  destruct H as (t & o & Hstate & [Hlog|(e & Ho & He)]).
  - apply Hlog. injection Hstate as <- _. reflexivity.
  - injection Hstate as _ <-.
    change (Raised (GoogleAPICallError Forbidden) = @Raised QueryJob e) in Ho.
    injection Ho as <-. discriminate He.
Qed.

(** The loop over the results ends with the first exception it meets. *)
Lemma for_each_result_first fn args order ex :
  tracks fn args ex →
  snd (for_each_result fn order ex)
  = ends_with (first_raised ((λ arg, result (fn arg)) <$> args) order).
Proof.
  revert ex. induction order as [|i order IH]; intros ex Htr; [reflexivity|].
  cbn [for_each_result first_raised]. rewrite list_lookup_fmap.
  destruct (args !! i) as [arg|] eqn:Harg; simpl.
  - rewrite (future_result_finished fn _ _ arg
               (complete_finishes fn _ _ _ _ Htr Harg)).
    destruct (result (fn arg)) as [job|e]; [|reflexivity].
    apply IH. now apply tracks_complete.
  - assert (Hnone : futures ex !! i = None).
    { apply lookup_ge_None. rewrite (tracks_length fn _ _ Htr).
      now apply lookup_ge_None. }
    assert (Hsame : complete fn i ex = ex)
      by (unfold complete; now rewrite Hnone).
    rewrite Hsame. unfold future_result. rewrite Hnone. simpl. now apply IH.
Qed.

Lemma run_all_models_first_failure w self schedule :
  result (run_all_models w self schedule)
  = ends_with
      (first_raised (batch_outcomes w self)
         (as_completed schedule
            (seq 0 (length (_get_compiled_models w self))))).
Proof.
  rewrite run_all_models_result. unfold run_all_models_pool, batch_outcomes.
  set (models := _get_compiled_models w self).
  change (λ arg : string, run_from_model w self (PStr arg) ∅)
    with (unit_of w self).
  set (ex0 := fold_left (λ ex node, submit ex (str node)) models new_executor).
  assert (Htr : tracks (unit_of w self) (str <$> models) ex0)
    by apply (tracks_submit_all (unit_of w self) models [] new_executor
                (tracks_new _)).
  pose proof (for_each_result_first (unit_of w self) (str <$> models)
                (as_completed schedule (seq 0 (length (futures ex0)))) ex0 Htr)
    as Hfirst.
  assert (Hlen : length (futures ex0) = length models)
    by now rewrite (tracks_length _ _ _ Htr), length_fmap.
  rewrite <- list_fmap_compose in Hfirst. rewrite Hlen in Hfirst |- *.
  destruct (for_each_result (unit_of w self) _ ex0) as [ex1 o].
  exact Hfirst.
Qed.

(** C1, amended. For every batch, [run_all_models] is left only when all
    submitted calls have finished: the pool then holds exactly one future
    for each model, in order, finished with the outcome of the call on that
    model, and what the run does is what its calls do, the events of each
    call kept together. The function returns no outcomes: it ends with the
    first exception the loop over the completed futures meets, and returns
    [None] when there is none, that is exactly when every call returned.
    The outcomes of the other calls are not handed to the caller: a call
    that failed without a log line and with another exception than the one
    raised is reported nowhere, and a batch drops no outcome only if every
    call wrote a log line or raised the exception that is raised. *)
Theorem batch_joins_all_calls (w : World) (self : BigQueryDryRunner)
  (schedule : list nat) :
  let pool := run_all_models_pool w self schedule in
  let models := _get_compiled_models w self in
  let r := result (run_all_models w self schedule) in
  futures (fst pool) = finished_future w self <$> models
  ∧ length (futures (fst pool)) = length models
  ∧ r = ends_with
          (first_raised (batch_outcomes w self)
             (as_completed schedule (seq 0 (length models))))
  ∧ (r = Returned tt ↔
     ∀ node, In node models →
             is_raised (result (unit_of w self (str node))) = false)
  ∧ (∀ e, r = Raised e →
          ∃ node, In node models ∧ result (unit_of w self (str node)) = Raised e)
  ∧ Permutation (trace (run_all_models w self schedule))
      (concat ((λ node, trace (unit_of w self (str node))) <$> models))
  ∧ (∀ node e,
       In node models →
       result (unit_of w self (str node)) = Raised e →
       log_lines (trace (unit_of w self (str node))) = [] →
       r ≠ Raised e →
       In (finished_future w self node) (futures (fst pool))
       ∧ ¬ reported r (finished_future w self node)
       ∧ ¬ no_silent_drop pool)
  ∧ (no_silent_drop pool ↔
     ∀ node, In node models →
       log_lines (trace (unit_of w self (str node))) ≠ []
       ∨ ∃ e, result (unit_of w self (str node)) = Raised e ∧ r = Raised e).
Proof.
  cbv zeta.
  pose proof (run_all_models_first_failure w self schedule) as Hfirst.
  rewrite run_all_models_result in *.
  destruct (run_all_models_pool_spec w self schedule) as (Hfut & Hret & Hraise).
  assert (Hrep : ∀ node,
            reported (snd (run_all_models_pool w self schedule))
              (finished_future w self node)
            ↔ log_lines (trace (unit_of w self (str node))) ≠ []
              ∨ ∃ e, result (unit_of w self (str node)) = Raised e
                     ∧ snd (run_all_models_pool w self schedule) = Raised e).
  { intros node. unfold reported, finished_future. simpl. split.
    - intros (t & o & [= Hu] & H).
      rewrite Hu. exact H.
    - intros H. destruct (unit_of w self (str node)) as [t o] eqn:Hu.
      exists t, o. split; [reflexivity|exact H]. }
  assert (Hdrop : no_silent_drop (run_all_models_pool w self schedule)
            ↔ ∀ node, In node (_get_compiled_models w self) →
                reported (snd (run_all_models_pool w self schedule))
                  (finished_future w self node)).
  { unfold no_silent_drop. rewrite Hfut, Forall_fmap, Forall_forall.
    split; intros H node Hin; apply H; now apply list_elem_of_In. }
  split; [exact Hfut|]. split; [now rewrite Hfut, length_fmap|].
  split; [exact Hfirst|]. split; [exact Hret|]. split; [exact Hraise|].
  split; [apply run_all_models_trace|]. split.
  - intros node e Hin Hres Hlog Hne.
    assert (Hnot : ¬ reported (snd (run_all_models_pool w self schedule))
                     (finished_future w self node)).
    { rewrite Hrep. intros [H|(e' & He' & Hr)]; [now apply H|].
      rewrite Hres in He'. injection He' as <-. now apply Hne. }
    split; [|split; [exact Hnot|]].
    + rewrite Hfut. apply list_elem_of_In, list_elem_of_fmap.
      exists node. split; [reflexivity|now apply list_elem_of_In].
    + rewrite Hdrop. intros H. now apply Hnot, H.
  - rewrite Hdrop. split; intros H node Hin; apply Hrep, H, Hin.
Qed.

(** In [w_outage] the two calls fail in two ways and write no line: which
    failure leaves [run_all_models] is a matter of the order in which the
    futures complete, and the other one is reported nowhere. *)
Lemma batch_joins_all_calls_witness :
  result (run_all_models w_outage runner [])
  = Raised (GoogleAPICallError ServiceUnavailable)
  ∧ result (run_all_models w_outage runner [1])
    = Raised (GoogleAPICallError Forbidden)
  ∧ ¬ reported (result (run_all_models w_outage runner []))
        (finished_future w_outage runner (dbt_target_dir runner ++ ["b.sql"])).
Proof.
  destruct (batch_joins_all_calls w_outage runner [])
    as (_ & _ & Hfirst & _ & _ & _ & Hdrop & _).
  destruct (batch_joins_all_calls w_outage runner [1])
    as (_ & _ & Hfirst' & _).
  split; [exact Hfirst|]. split; [exact Hfirst'|].
  apply (Hdrop (dbt_target_dir runner ++ ["b.sql"])%list
           (GoogleAPICallError Forbidden)).
  - rewrite models_outage. right. now left.
  - reflexivity.
  - reflexivity.
  - rewrite Hfirst. discriminate.
Defined.

(** C7. For every batch of a constructed runner in which every model is
    readable and accepted by the service, [run_all_models] returns; the
    pool holds as many finished futures as there are models, each with a
    returned job and the "is valid" line of its model, and the run has sent
    as many requests and written as many log lines as there are models.
    When no model is found, nothing is done and the function returns. *)
Theorem all_valid_batch (w : World) (project : string)
  (target_dir : option string) (location : string)
  (self : BigQueryDryRunner) (schedule : list nat) :
  result (__init__ w project target_dir location) = Returned self →
  (∀ node, In node (_get_compiled_models w self) →
           ∃ job, accepted_model w self node job) →
  let pool := run_all_models_pool w self schedule in
  let models := _get_compiled_models w self in
  result (run_all_models w self schedule) = Returned tt
  ∧ length (futures (fst pool)) = length models
  ∧ Forall (λ f, ∃ t job label,
                 fut_state f = Some (t, Returned job)
                 ∧ In (ELog INFO (valid_message label)) t)
      (futures (fst pool))
  ∧ length (log_lines (trace (run_all_models w self schedule))) = length models
  ∧ length (requests (trace (run_all_models w self schedule))) = length models
  ∧ (models = [] → run_all_models w self schedule = ([], Returned tt)).
Proof.
  intros Hinit Hvalid. cbv zeta. rewrite run_all_models_result.
  destruct (run_all_models_pool_spec w self schedule) as (Hfut & Hret & _).
  assert (Hunit : ∀ node, In node (_get_compiled_models w self) →
            ∃ job label sql,
              unit_of w self (str node)
              = ([EOpen (str (Path_of_str (str node)));
                  EQuery sql (dry_run_config ∅);
                  ELog INFO (valid_message label)], Returned job)).
  { intros node Hin. destruct (Hvalid node Hin) as [job Hjob].
    pose proof (compiled_models_have_models _ _ _ _ _ _ Hinit Hin) as Hm.
    destruct (unit_accepted w self node job Hm Hjob) as (label & sql & Hu).
    now exists job, label, sql. }
  split; [|split; [|split; [|split; [|split]]]].
  - apply Hret. intros node Hin.
    destruct (Hunit node Hin) as (job & label & sql & ->). reflexivity.
  - now rewrite Hfut, length_fmap.
  - rewrite Hfut. apply Forall_fmap, Forall_forall. intros node Hin.
    apply list_elem_of_In in Hin.
    destruct (Hunit node Hin) as (job & label & sql & Hu).
    eexists _, job, label. simpl. rewrite Hu. split; [reflexivity|in_list].
  - unfold log_lines.
    rewrite (filter_length_Permutation _ _ _ (run_all_models_trace w self schedule)).
    apply filter_length_concat. intros node Hin.
    destruct (Hunit node Hin) as (job & label & sql & ->). reflexivity.
  - unfold requests.
    rewrite (filter_length_Permutation _ _ _ (run_all_models_trace w self schedule)).
    apply filter_length_concat. intros node Hin.
    destruct (Hunit node Hin) as (job & label & sql & ->). reflexivity.
  - apply run_all_models_empty.
Qed.

Lemma all_valid_batch_witness :
  result (run_all_models w_valid runner [1]) = Returned tt
  ∧ length (futures (fst (run_all_models_pool w_valid runner [1]))) = 2.
Proof.
  destruct (all_valid_batch w_valid "p" (Some "incremental") "EU" runner [1])
    as (Hret & Hlen & _).
  - now apply (init_runner _).
  - intros node Hin. rewrite models_valid in Hin. exists job1.
    destruct Hin as [<-|[<-|[]]]; eexists; split; reflexivity.
  - split; [exact Hret|exact Hlen].
Defined.

(** C2. For every batch of a constructed runner with a model the service
    rejects, [run_all_models] raises; all the same every model has its
    finished future, and every model that is readable and accepted has
    returned its job and logged its "is valid" line. *)
Theorem invalid_model_isolated (w : World) (project : string)
  (target_dir : option string) (location : string)
  (self : BigQueryDryRunner) (schedule : list nat)
  (bad : Path) (errors : list error_entry) :
  result (__init__ w project target_dir location) = Returned self →
  In bad (_get_compiled_models w self) →
  rejected_model w self bad errors →
  let pool := run_all_models_pool w self schedule in
  let models := _get_compiled_models w self in
  is_raised (result (run_all_models w self schedule)) = true
  ∧ futures (fst pool) = finished_future w self <$> models
  ∧ (∀ node job,
       In node models → accepted_model w self node job →
       In (finished_future w self node) (futures (fst pool))
       ∧ ∃ t label, unit_of w self (str node) = (t, Returned job)
                    ∧ In (ELog INFO (valid_message label)) t).
Proof.
  intros Hinit Hbad Hrej. cbv zeta. rewrite run_all_models_result.
  destruct (run_all_models_pool_spec w self schedule) as (Hfut & Hret & _).
  split; [|split].
  - destruct (snd (run_all_models_pool w self schedule)) as [[]|e];
      [|reflexivity].
    destruct Hret as [Hret _]. specialize (Hret eq_refl bad Hbad).
    pose proof (compiled_models_have_models _ _ _ _ _ _ Hinit Hbad) as Hm.
    destruct (unit_rejected w self bad errors Hm Hrej) as [Hraised _].
    rewrite Hraised in Hret. discriminate.
  - exact Hfut.
  - intros node job Hin Hacc. split.
    + rewrite Hfut. apply list_elem_of_In, list_elem_of_fmap.
      exists node. split; [reflexivity|now apply list_elem_of_In].
    + pose proof (compiled_models_have_models _ _ _ _ _ _ Hinit Hin) as Hm.
      destruct (unit_accepted w self node job Hm Hacc) as (label & sql & Hu).
      eexists _, label. split; [exact Hu|]. in_list.
Qed.

Lemma invalid_model_isolated_witness :
  is_raised (result (run_all_models w_mixed runner [])) = true
  ∧ In (finished_future w_mixed runner (dbt_target_dir runner ++ ["a.sql"]))
       (futures (fst (run_all_models_pool w_mixed runner []))).
Proof.
  destruct (invalid_model_isolated w_mixed "p" (Some "incremental") "EU" runner []
              (dbt_target_dir runner ++ ["b"; "bad.sql"]) [unknown_column])
    as (Hraised & _ & Hvalid).
  - now apply (init_runner _).
  - rewrite models_mixed. right. now left.
  - exists "select x". split; reflexivity.
  - split; [exact Hraised|].
    apply (Hvalid (dbt_target_dir runner ++ ["a.sql"])%list job1).
    + rewrite models_mixed. now left.
    + exists "select 1". split; reflexivity.
Defined.

(** The run of [w_mixed]: the rejected model is looked at first, the valid
    one is still run while the pool shuts down. *)
Example mixed_run :
  run_all_models w_mixed runner [1]
  = ([EOpen "/repo/target/incremental/compiled/shop/models/b/bad.sql";
      EQuery "select x" (dry_run_config ∅);
      ELog ERROR (invalid_message ["models"; "b"; "bad.sql"] "Unrecognized name: x");
      EOpen "/repo/target/incremental/compiled/shop/models/a.sql";
      EQuery "select 1" (dry_run_config ∅);
      ELog INFO (valid_message ["models"; "a.sql"])],
     Raised (BadRequest [unknown_column])).
Proof. reflexivity. Qed.

(** C6, as stated, fails: without a target directory the runner is built
    and the batch ends as an empty, successful one. *)
Lemma missing_target_dir_is_empty_batch :
  listable w_uncompiled (dbt_target_dir runner) = false
  ∧ result (__init__ w_uncompiled "p" (Some "incremental") "EU") = Returned runner
  ∧ ¬ is_raised (result (run_all_models w_uncompiled runner [])) = true.
Proof.
  split; [reflexivity|]. split; [now apply (init_runner _)|]. discriminate.
Qed.

Lemma unlistable_has_no_models w self :
  listable w (dbt_target_dir self) = false → _get_compiled_models w self = [].
Proof.
  unfold listable, _get_compiled_models, rglob.
  destruct (fs_lookup w (str (dbt_target_dir self))) as [[c|[] entries]|];
    try reflexivity. discriminate.
Qed.

(** A lookup finds nothing exactly when it fails for one of the three
    reasons. *)
Lemma walk_failure_spec stack cur segs :
  walk stack cur segs = None ↔ is_Some (walk_failure stack cur segs).
Proof.
  revert stack cur. induction segs as [|s segs IH]; intros stack cur; simpl.
  - split; [discriminate|intros [x H]; discriminate].
  - destruct cur as [c|[] entries]; simpl; try (split; eauto; fail).
    destruct (String.eqb s "..").
    + destruct stack as [|parent stack']; apply IH.
    + destruct (assoc s entries) as [n|]; [apply IH|split; eauto].
Qed.

Lemma fs_failure_spec w name :
  fs_lookup w name = None ↔ is_Some (fs_failure w name).
Proof. apply walk_failure_spec. Qed.

Lemma absent_or_unlistable_not_listable w dir :
  absent_or_unlistable w dir = true → listable w dir = false.
Proof.
  unfold absent_or_unlistable, listable.
  now destruct (fs_lookup w (str dir)) as [[c|[] entries]|].
Qed.

(** C6, amended. When the target directory does not exist or is not a
    directory (a component of its name is missing or is a file, the
    directories on the way being searchable), or is a directory that cannot
    be listed, nothing checks it: the Model Locator finds no file, and the
    batch is the empty batch: no call is made and [run_all_models]
    returns. *)
Theorem absent_target_dir_is_empty_batch (w : World) (self : BigQueryDryRunner)
  (schedule : list nat) :
  absent_or_unlistable w (dbt_target_dir self) = true →
  _get_compiled_models w self = []
  ∧ run_all_models w self schedule = ([], Returned tt).
Proof.
  intros H. apply absent_or_unlistable_not_listable in H.
  apply unlistable_has_no_models in H.
  split; [exact H|now apply run_all_models_empty].
Qed.

Lemma absent_target_dir_is_empty_batch_witness :
  fs_failure w_uncompiled (str (dbt_target_dir runner)) = Some ENOENT
  ∧ _get_compiled_models w_uncompiled runner = []
  ∧ run_all_models w_uncompiled runner [] = ([], Returned tt).
Proof.
  split; [reflexivity|].
  apply (absent_target_dir_is_empty_batch w_uncompiled runner []). reflexivity.
Defined.

(** The three ways of the amended claim, and the one it leaves out. *)
Example absent_or_unlistable_cases :
  absent_or_unlistable w_uncompiled (dbt_target_dir runner) = true
  ∧ absent_or_unlistable w_valid
      (dbt_target_dir runner ++ ["a.sql"; "models"])%list = true
  ∧ absent_or_unlistable
      (world_of (repo "incremental" [("locked", Dir false [])]))
      (dbt_target_dir runner ++ ["locked"])%list = true
  ∧ absent_or_unlistable
      (world_of (repo "incremental" [("locked", Dir false [])]))
      (dbt_target_dir runner ++ ["locked"; "models"])%list = false.
Proof. repeat split. Qed.

End BatchFacts.

(** ** hooks.py *)

Module HooksFacts.
Import Pathlib Py DryRun Hooks Notions Scenarios PathlibFacts DryRunFacts
  PoolFacts BatchFacts.

Lemma never_exits_bind {A B} (m : Py A) (k : A → Py B) :
  never_exits m → (∀ a, never_exits (k a)) → never_exits (bind m k).
Proof.
  unfold never_exits, result, bind. intros Hm Hk code.
  destruct m as [t [a|e]]; simpl in *.
  - specialize (Hk a code). now destruct (k a).
  - intros [= ->]. now apply (Hm code).
Qed.

Lemma run_from_model_never_exits w self model_path opts :
  never_exits (run_from_model w self model_path opts).
Proof.
  intros code.
  unfold run_from_model, open_read, QueryJobConfig_new, query, _trim_path_from,
    first_error_message.
  py_unfold.
  destruct (fs_lookup w (str (as_Path model_path))) as [[[sql|]|]|];
    simpl; try discriminate.
  destruct (opts !! "dry_run"); simpl; try discriminate.
  destruct (client_query _ _ _) as [job|errors|kind]; simpl;
    destruct (index "models" (as_Path model_path)); simpl; try discriminate.
  destruct errors as [|entry errors]; simpl; try discriminate.
  destruct (entry !! "message"); simpl; discriminate.
Qed.

Lemma run_all_models_never_exits w self schedule :
  never_exits (run_all_models w self schedule).
Proof.
  intros code H. rewrite run_all_models_result in H.
  destruct (run_all_models_pool_spec w self schedule) as (_ & _ & Hraise).
  destruct (Hraise _ H) as (node & _ & Hunit).
  exact (run_from_model_never_exits w self (PStr (str node)) ∅ code Hunit).
Qed.

Lemma init_never_exits w project target_dir location :
  never_exits (__init__ w project target_dir location).
Proof.
  intros code.
  unfold __init__, Client_new, _get_dbt_project_config, open_read,
    _get_dbt_target_dir, getitem, truediv.
  py_unfold. simpl.
  destruct (client_init w project location); simpl; try discriminate.
  destruct (fs_lookup w _) as [[[text|]|]|]; simpl; try discriminate.
  destruct (yaml_safe_load w text) as [[d|]|]; simpl; try discriminate;
    destruct (negb (truthy target_dir)); simpl; try discriminate;
    destruct (d !! "name") as [[name|]|]; simpl; discriminate.
Qed.

Lemma dry_run_incremental_never_exits w schedule :
  never_exits (dry_run_incremental_models w schedule).
Proof.
  apply never_exits_bind; [apply init_never_exits|].
  intros self. apply run_all_models_never_exits.
Qed.

(** With the argument [foo] the script still starts a batch: the models of
    the incremental target are validated before the argument is looked at,
    and the message goes to standard output. *)
Example unknown_argument_run :
  main w_mixed [] [] ["hooks.py"; "foo"]
  = ([EClient "c4-links-ecollab-dev" "EU"; EOpen "dbt_project.yml";
      EOpen "/repo/target/incremental/compiled/shop/models/a.sql";
      EQuery "select 1" (dry_run_config ∅);
      ELog INFO (valid_message ["models"; "a.sql"]);
      EOpen "/repo/target/incremental/compiled/shop/models/b/bad.sql";
      EQuery "select x" (dry_run_config ∅);
      ELog ERROR (invalid_message ["models"; "b"; "bad.sql"] "Unrecognized name: x")],
     Raised (BadRequest [unknown_column])).
Proof. reflexivity. Qed.

Example unknown_argument_valid_models :
  main w_valid [] [] ["hooks.py"; "foo"]
  = ([EClient "c4-links-ecollab-dev" "EU"; EOpen "dbt_project.yml";
      EOpen "/repo/target/incremental/compiled/shop/models/a.sql";
      EQuery "select 1" (dry_run_config ∅);
      ELog INFO (valid_message ["models"; "a.sql"]);
      EOpen "/repo/target/incremental/compiled/shop/models/b/c.sql";
      EQuery "select 2" (dry_run_config ∅);
      ELog INFO (valid_message ["models"; "b"; "c.sql"]);
      EPrint usage_message],
     Raised (SystemExit 1)).
Proof. reflexivity. Qed.

(** C9. The script breaks the claim: with the argument [foo], which names
    no operation, it still validates models. The call of
    [dry_run_incremental_models()] that comes before the dispatch on
    [sys.argv[1]] sends the dry-run requests of the incremental target;
    only then is the usage message printed. *)
Lemma unknown_argument_still_validates :
  names_operation ["hooks.py"; "foo"] = false
  ∧ ¬ requests (trace (main w_valid [] [] ["hooks.py"; "foo"])) = []
  ∧ requests (trace (main w_valid [] [] ["hooks.py"; "foo"]))
    = [EQuery "select 1" (dry_run_config ∅); EQuery "select 2" (dry_run_config ∅)]
  ∧ stdout (trace (main w_valid [] [] ["hooks.py"; "foo"])) = [usage_message]
  ∧ exit_status (result (main w_valid [] [] ["hooks.py"; "foo"])) = 1%Z.
Proof.
  split; [reflexivity|]. rewrite unknown_argument_valid_models.
  split; [discriminate|]. repeat split.
Qed.

(** An invocation whose argument is missing or names neither operation
    has an exit status that is not zero. When the call before the dispatch
    returns: with an argument that names no operation the script prints
    the usage message on standard output as its last action and leaves with
    [sys.exit(1)], which writes no traceback; without an argument it ends
    in the uncaught [IndexError] of [sys.argv[1]]. *)
Theorem bad_argument_exit (w : World) (schedule1 schedule2 : list nat)
  (argv : list string) :
  names_operation argv = false →
  let r := main w schedule1 schedule2 argv in
  let first := dry_run_incremental_models w schedule1 in
  exit_status (result r) ≠ 0%Z
  ∧ (∀ a, argv !! 1 = Some a → result first = Returned tt →
          r = (trace first ++ [EPrint usage_message], Raised (SystemExit 1))
          ∧ exit_status (result r) = 1%Z
          ∧ stderr_traceback (result r) = None)
  ∧ (argv !! 1 = None → result first = Returned tt →
     r = (trace first, Raised IndexError)
     ∧ stderr_traceback (result r) = Some IndexError).
Proof.
  intros Hbad. cbv zeta. unfold main, names_operation, argv_getitem in *.
  pose proof (dry_run_incremental_never_exits w schedule1) as Hexit.
  destruct (dry_run_incremental_models w schedule1) as [t [[]|e]] eqn:Hfirst.
  - py_unfold. simpl.
    destruct (argv !! 1) as [a|] eqn:Ha; simpl.
    + apply orb_false_iff in Hbad as [Hinc Hfull]. rewrite Hinc, Hfull. simpl.
      split; [discriminate|]. split; [|discriminate].
      intros a' _ _. repeat split.
    + split; [discriminate|]. split; [discriminate|].
      intros _ _. rewrite ?app_nil_r. repeat split.
  - py_unfold. simpl. split; [|split; [intros a _ H|intros _ H]; discriminate H].
    specialize (Hexit 0%Z). unfold result in Hexit. simpl in Hexit.
    destruct e; simpl; try discriminate.
    intros ->. now apply Hexit.
Qed.

Lemma bad_argument_exit_witness :
  exit_status (result (main w_valid [] [] ["hooks.py"; "foo"])) ≠ 0%Z
  ∧ exit_status (result (main w_valid [] [] ["hooks.py"])) ≠ 0%Z.
Proof.
  split.
  - apply (bad_argument_exit w_valid [] [] ["hooks.py"; "foo"]). reflexivity.
  - apply (bad_argument_exit w_valid [] [] ["hooks.py"]). reflexivity.
Defined.

(** With a good argument the first batch is run all the same, and the
    named operation after it. *)
Example full_refresh_runs_incremental_first :
  requests (trace (main w_valid [] [] ["hooks.py"; "full_refresh"]))
  = [EQuery "select 1" (dry_run_config ∅); EQuery "select 2" (dry_run_config ∅)]
  ∧ stdout (trace (main w_valid [] [] ["hooks.py"; "full_refresh"]))
    = ["Running full refresh models"].
Proof. split; reflexivity. Qed.

End HooksFacts.

(** ** More on the runner: labels, the target directory, construction *)

Module RunnerFacts.
Import Pathlib Py DryRun Notions Scenarios PathlibFacts DryRunFacts PoolFacts
  BatchFacts.

Lemma index_head x l : index x (x :: l) = Some 0.
Proof. simpl. now rewrite String.eqb_refl. Qed.

Lemma trim_path_from_wf self path parent_dir :
  wf_path path = true →
  _trim_path_from self path parent_dir
  = match index parent_dir path with
    | Some idx => ([], Returned (drop idx path))
    | None => ([], Raised ValueError)
    end.
Proof.
  intros Hwf. unfold _trim_path_from.
  destruct (index parent_dir path) as [i|]; [|reflexivity].
  now rewrite Path_of_args_parts by now apply wf_path_drop.
Qed.

(** [_trim_path_from] for any [parent_dir]: on a path in normal form it
    returns exactly when [parent_dir] is a component of the path, and then
    the result is the rest of the path from the first such component on;
    otherwise it raises [ValueError]. It performs no action. *)
Theorem trim_path_from_any_parent (self : BigQueryDryRunner) (path : Path)
  (parent_dir : string) :
  wf_path path = true →
  (In parent_dir path →
   ∃ pre post,
     path = (pre ++ parent_dir :: post)%list ∧ ¬ In parent_dir pre
     ∧ _trim_path_from self path parent_dir
       = ([], Returned (parent_dir :: post)))
  ∧ (¬ In parent_dir path →
     _trim_path_from self path parent_dir = ([], Raised ValueError)).
Proof.
  intros Hwf. rewrite (trim_path_from_wf self path parent_dir Hwf). split.
  - intros Hin. destruct (index parent_dir path) as [i|] eqn:Hi.
    + destruct (index_Some _ _ _ Hi) as (pre & post & Heq & Hpre & _ & Hdrop).
      exists pre, post. now rewrite Hdrop.
    + apply index_None in Hi. contradiction.
  - intros Hnot. apply index_None in Hnot. now rewrite Hnot.
Qed.

Lemma trim_path_from_any_parent_witness :
  _trim_path_from runner (Path_of_str "path/to/parent_dir/child_dir/file.sql")
    "parent_dir"
  = ([], Returned (Path_of_str "parent_dir/child_dir/file.sql"))
  ∧ _trim_path_from runner (Path_of_str "path/to/child_dir/file.sql")
      "parent_dir"
    = ([], Raised ValueError).
Proof.
  split.
  - destruct (trim_path_from_any_parent runner
                (Path_of_str "path/to/parent_dir/child_dir/file.sql")
                "parent_dir" eq_refl) as [Hfound _].
    destruct Hfound as (pre & post & Heq & Hpre & Htrim); [in_list|].
    reflexivity.
  - apply (trim_path_from_any_parent runner
             (Path_of_str "path/to/child_dir/file.sql") "parent_dir" eq_refl).
    vm_compute. intros H. repeat (destruct H as [H|H]; [discriminate H|]).
    exact H.
Defined.

(** Trimming is idempotent: the label [_trim_path_from] returns is again a
    path in normal form, it starts with [parent_dir], and trimming it once
    more gives it back unchanged. *)
Theorem trim_path_from_idempotent (self : BigQueryDryRunner) (path label : Path)
  (parent_dir : string) :
  wf_path path = true →
  _trim_path_from self path parent_dir = ([], Returned label) →
  wf_path label = true
  ∧ hd_error label = Some parent_dir
  ∧ _trim_path_from self label parent_dir = ([], Returned label).
Proof.
  intros Hwf. rewrite (trim_path_from_wf self path parent_dir Hwf).
  destruct (index parent_dir path) as [i|] eqn:Hi; [|discriminate].
  intros [= <-].
  pose proof (wf_path_drop path i Hwf) as Hwf'.
  destruct (index_Some _ _ _ Hi) as (pre & post & _ & _ & _ & Hdrop).
  rewrite Hdrop in *. repeat split; [exact Hwf'|].
  now rewrite (trim_path_from_wf self _ parent_dir Hwf'), index_head.
Qed.

Lemma trim_path_from_idempotent_witness :
  _trim_path_from runner ["models"; "a"; "b.sql"] "models"
  = ([], Returned ["models"; "a"; "b.sql"]).
Proof.
  apply (trim_path_from_idempotent runner
           (Path_of_str "/repo/target/compiled/shop/models/a/b.sql")
           ["models"; "a"; "b.sql"] "models");
    reflexivity.
Defined.

(** The errors of [_get_dbt_target_dir], whatever the label: a project
    file that is not a mapping or whose "name" is not a string gives
    [TypeError], a mapping without "name" gives [KeyError("name")]; in each
    case nothing else happens. *)
Theorem target_dir_config_errors (self : BigQueryDryRunner)
  (target_dir : option string) :
  (dbt_project_config self = YNotDict →
   _get_dbt_target_dir self target_dir = ([], Raised TypeError))
  ∧ (∀ d, dbt_project_config self = YDict d → d !! "name" = None →
          _get_dbt_target_dir self target_dir = ([], Raised (KeyError "name")))
  ∧ (∀ d, dbt_project_config self = YDict d → d !! "name" = Some YOther →
          _get_dbt_target_dir self target_dir = ([], Raised TypeError)).
Proof.
  unfold _get_dbt_target_dir, getitem, truediv.
  split; [|split].
  - intros ->. now destruct (negb (truthy target_dir)).
  - intros d -> ->. now destruct (negb (truthy target_dir)).
  - intros d -> ->. now destruct (negb (truthy target_dir)).
Qed.

Lemma target_dir_config_errors_witness :
  _get_dbt_target_dir
    {| client := client runner; dbt_project_config := YDict ∅;
       root_path := ["/"; "repo"]; dbt_target_dir := [] |} (Some "incremental")
  = ([], Raised (KeyError "name"))
  ∧ _get_dbt_target_dir
      {| client := client runner;
         dbt_project_config := YDict {[ "name" := YOther ]};
         root_path := ["/"; "repo"]; dbt_target_dir := [] |} None
    = ([], Raised TypeError).
Proof.
  split.
  - apply (target_dir_config_errors
             {| client := client runner; dbt_project_config := YDict ∅;
                root_path := ["/"; "repo"]; dbt_target_dir := [] |}
             (Some "incremental")) with (d := ∅); reflexivity.
  - apply (target_dir_config_errors
             {| client := client runner;
                dbt_project_config := YDict {[ "name" := YOther ]};
                root_path := ["/"; "repo"]; dbt_target_dir := [] |} None)
      with (d := {[ "name" := YOther ]}); reflexivity.
Defined.

(** A project name that starts with a slash is an absolute path for
    [pathlib]: it replaces the root path and the label, and the target
    directory is [<name>/models]. *)
Theorem target_dir_absolute_project_name (self : BigQueryDryRunner)
  (target_dir : option string) (name : string) :
  getitem (dbt_project_config self) "name" = ([], Returned (YStr name)) →
  starts_with_slash name = true →
  _get_dbt_target_dir self target_dir
  = ([], Returned (Path_of_str name ++ ["models"])%list).
Proof.
  intros Hname Habs. unfold _get_dbt_target_dir, truediv.
  destruct (negb (truthy target_dir)); rewrite Hname; py_unfold; simpl;
    unfold joinpath at 2; rewrite Habs;
    now rewrite (joinpath_clean _ "models" eq_refl).
Qed.

Lemma target_dir_absolute_project_name_witness :
  _get_dbt_target_dir
    {| client := client runner;
       dbt_project_config := YDict {[ "name" := YStr "/srv/shop" ]};
       root_path := ["/"; "repo"]; dbt_target_dir := [] |} (Some "incremental")
  = ([], Returned ["/"; "srv"; "shop"; "models"]).
Proof.
  apply (target_dir_absolute_project_name
           {| client := client runner;
              dbt_project_config := YDict {[ "name" := YStr "/srv/shop" ]};
              root_path := ["/"; "repo"]; dbt_target_dir := [] |}
           (Some "incremental") "/srv/shop"); reflexivity.
Defined.

(** *** Construction *)

Lemma project_config_None w :
  _get_dbt_project_config w None
  = bind (open_read w "dbt_project.yml")
      (λ text, match yaml_safe_load w text with
               | Some doc => ret doc
               | None => raise YAMLError
               end).
Proof. reflexivity. Qed.

(** [__init__] fails fast and stays local. If [Client(...)] fails, the
    project file is not even opened; if the project file cannot be read,
    the error of [open] is raised right after the client was made; and in
    no case is a remote request sent or a line logged: all [__init__] ever
    does is make the client and open [dbt_project.yml]. *)
Theorem init_fails_fast (w : World) (project : string)
  (target_dir : option string) (location : string) :
  let r := __init__ w project target_dir location in
  (∀ kind, client_init w project location = Some kind →
           r = ([EClient project location], Raised (GoogleAPICallError kind)))
  ∧ (∀ e, client_init w project location = None →
          open_error w "dbt_project.yml" = Some e →
          r = ([EClient project location; EOpen "dbt_project.yml"], Raised e))
  ∧ (trace r = [EClient project location]
     ∨ trace r = [EClient project location; EOpen "dbt_project.yml"]).
Proof.
  cbv zeta. unfold __init__, Client_new. rewrite project_config_None.
  unfold open_read, open_error, _get_dbt_target_dir, getitem, truediv.
  py_unfold. simpl.
  destruct (client_init w project location) as [kind|]; simpl.
  - split; [now intros k [= ->]|]. split; [discriminate|now left].
  - split; [discriminate|].
    destruct (fs_lookup w "dbt_project.yml") as [[[text|]|]|]; simpl;
      try (split; [now intros e _ [= <-]|now right]).
    split; [discriminate|]. right.
    destruct (yaml_safe_load w text) as [[d|]|]; simpl; try reflexivity;
      destruct (negb (truthy target_dir)); simpl; try reflexivity;
      destruct (d !! "name") as [[name|]|]; reflexivity.
Qed.

Lemma init_fails_fast_witness :
  __init__ (world_of (Dir true [("repo", Dir true [])])) "p"
    (Some "incremental") "EU"
  = ([EClient "p" "EU"; EOpen "dbt_project.yml"],
     Raised (FileNotFoundError "dbt_project.yml")).
Proof.
  apply (init_fails_fast (world_of (Dir true [("repo", Dir true [])])) "p"
           (Some "incremental") "EU"); reflexivity.
Defined.

(** What a constructed runner looks like: its client has the project and
    the location it was given, its root path is the working directory, its
    configuration is the parsed content of [dbt_project.yml], and its
    target directory is what [_get_dbt_target_dir] computes on the finished
    object; building it opened the project file and nothing else. *)
Theorem init_returns (w : World) (project : string)
  (target_dir : option string) (location : string) (self : BigQueryDryRunner) :
  result (__init__ w project target_dir location) = Returned self →
  trace (__init__ w project target_dir location)
  = [EClient project location; EOpen "dbt_project.yml"]
  ∧ client self = {| client_project := project; client_location := location |}
  ∧ root_path self = cwd w
  ∧ (∃ text, fs_lookup w "dbt_project.yml" = Some (File (Some text))
             ∧ yaml_safe_load w text = Some (dbt_project_config self))
  ∧ _get_dbt_target_dir self target_dir = ([], Returned (dbt_target_dir self)).
Proof.
  unfold __init__, Client_new. rewrite project_config_None.
  unfold open_read. py_unfold. simpl.
  destruct (client_init w project location) as [kind|]; simpl; [discriminate|].
  destruct (fs_lookup w "dbt_project.yml") as [[[text|]|]|]; simpl;
    try discriminate.
  destruct (yaml_safe_load w text) as [doc|] eqn:Hload; simpl; [|discriminate].
  destruct (_get_dbt_target_dir
              {| client := {| client_project := project;
                              client_location := location |};
                 dbt_project_config := doc; root_path := cwd w;
                 dbt_target_dir := [] |} target_dir) as [t [dir|e]] eqn:Hdir;
    simpl; [|discriminate].
  intros [= <-]. simpl.
  assert (Ht : t = []).
  { revert Hdir. unfold _get_dbt_target_dir, getitem, truediv. py_unfold.
    destruct (negb (truthy target_dir)), doc as [d|]; simpl;
      try discriminate; destruct (d !! "name") as [[name|]|]; simpl;
      try discriminate; now intros [= <- _]. }
  subst t. repeat split; [now exists text|exact Hdir].
Qed.

Lemma init_returns_witness :
  trace (__init__ w_valid "p" (Some "incremental") "EU")
  = [EClient "p" "EU"; EOpen "dbt_project.yml"]
  ∧ _get_dbt_target_dir runner (Some "incremental")
    = ([], Returned (dbt_target_dir runner)).
Proof.
  destruct (init_returns w_valid "p" (Some "incremental") "EU" runner)
    as (Htrace & _ & _ & _ & Hdir); [reflexivity|].
  split; [exact Htrace|exact Hdir].
Defined.

(** *** Discovery *)

Lemma rglob_names w root suffix node :
  In node (rglob w root suffix) →
  ∃ dir name, node = (dir ++ [name])%list ∧ endswith name suffix = true.
Proof.
  unfold rglob. destruct (fs_lookup w (str root)) as [n|]; [|intros []].
  intros Hin. apply in_flat_map in Hin as (d & _ & Hnode).
  apply list_elem_of_In, list_elem_of_fmap in Hnode as (e & -> & He).
  apply list_elem_of_In, filter_In in He as [_ He].
  now exists (fst d), (fst e).
Qed.

(** Every path [_get_compiled_models] returns lies below the target
    directory, names a regular file, and has a last component that ends in
    [.sql]; directories are left out even when their name ends in [.sql]. *)
Theorem compiled_models_are_sql_files (w : World) (self : BigQueryDryRunner)
  (node : Path) :
  In node (_get_compiled_models w self) →
  (∃ rel, node = (dbt_target_dir self ++ rel)%list ∧ rel ≠ [])
  ∧ (∃ content, fs_lookup w (str node) = Some (File content))
  ∧ (∃ name, last node = Some name ∧ endswith name ".sql" = true).
Proof.
  intros Hin. split; [|split].
  - pose proof Hin as Hin'. unfold _get_compiled_models in Hin'.
    apply filter_In in Hin' as [Hglob _].
    unfold rglob in Hglob.
    destruct (fs_lookup w (str (dbt_target_dir self))) as [n|]; [|destruct Hglob].
    apply in_flat_map in Hglob as (d & Hd & Hnode).
    apply list_elem_of_In, list_elem_of_fmap in Hnode as (e & -> & _).
    destruct (iterate_directories_prefix _ _ _ Hd) as [rel Hrel].
    exists (rel ++ [fst e])%list. unfold Path in *. rewrite Hrel, app_assoc.
    split; [reflexivity|]. now destruct rel.
  - now apply (compiled_models_are_files w self).
  - unfold _get_compiled_models in Hin. apply filter_In in Hin as [Hglob _].
    destruct (rglob_names _ _ _ _ Hglob) as (dir & name & -> & Hname).
    exists name. split; [apply last_snoc|exact Hname].
Qed.

Lemma compiled_models_are_sql_files_witness :
  _get_compiled_models
    (world_of (repo "incremental"
                 [("a.sql", File (Some "select 1"));
                  ("old.sql", Dir true [("notes.txt", File (Some "x"))]);
                  ("readme.md", File (Some "x"))]))
    runner
  = [dbt_target_dir runner ++ ["a.sql"]]%list
  ∧ ∃ name, last (dbt_target_dir runner ++ ["a.sql"])%list = Some name
            ∧ endswith name ".sql" = true.
Proof.
  split; [reflexivity|].
  apply (compiled_models_are_sql_files
           (world_of (repo "incremental"
                        [("a.sql", File (Some "select 1"));
                         ("old.sql", Dir true [("notes.txt", File (Some "x"))]);
                         ("readme.md", File (Some "x"))]))
           runner). now left.
Defined.

End RunnerFacts.

(** ** More on the adapter: [run] and [run_from_model] *)

Module AdapterFacts.
Import Pathlib Py DryRun Notions Scenarios PathlibFacts DryRunFacts PoolFacts
  BatchFacts.

Lemma open_read_error w path e :
  open_error w path = Some e → open_read w path = ([EOpen path], Raised e).
Proof.
  unfold open_error, open_read. py_unfold.
  destruct (fs_lookup w path) as [[[text|]|]|]; simpl; try discriminate;
    now intros [= <-].
Qed.

Lemma open_error_None w path :
  open_error w path = None → ∃ sql, fs_lookup w path = Some (File (Some sql)).
Proof.
  unfold open_error.
  destruct (fs_lookup w path) as [[[text|]|]|]; try discriminate.
  now exists text.
Qed.

(** Neither [run] nor [run_from_model] ever sends more than one request,
    and the one they send is a dry run with exactly the options of the
    caller: for [run] of the given text, for [run_from_model] of the text
    of the file. *)
Theorem adapter_sends_one_dry_run (w : World) (self : BigQueryDryRunner)
  (opts : gmap string string) :
  (∀ sql,
     let t := trace (run w self sql opts) in
     dry_runs_only t
     ∧ (requests t = [] ∨ requests t = [EQuery sql (dry_run_config opts)]))
  ∧ (∀ model_path,
       let t := trace (run_from_model w self model_path opts) in
       dry_runs_only t
       ∧ (requests t = []
          ∨ ∃ sql, fs_lookup w (str (as_Path model_path)) = Some (File (Some sql))
                   ∧ requests t = [EQuery sql (dry_run_config opts)])).
Proof.
  assert (Hdry : ∀ t : list event,
            (requests t = [] ∨ ∃ sql, requests t = [EQuery sql (dry_run_config opts)]) →
            dry_runs_only t).
  { intros t Ht sql cfg Hin.
    assert (Hreq : In (EQuery sql cfg) (requests t))
      by (apply filter_In; now split).
    destruct Ht as [Ht|[sql' Ht]]; rewrite Ht in Hreq; [destruct Hreq|].
    destruct Hreq as [[= _ <-]|[]]. reflexivity. }
  split.
  - intros sql. cbv zeta.
    assert (Hreq : requests (trace (run w self sql opts)) = []
                   ∨ requests (trace (run w self sql opts))
                     = [EQuery sql (dry_run_config opts)]).
    { unfold run, QueryJobConfig_new, query, first_error_message.
      destruct (opts !! "dry_run"); py_unfold; simpl; [now left|]. right.
      destruct (client_query _ _ _) as [job|[|entry errors]|kind]; simpl;
        try reflexivity.
      now destruct (entry !! "message"). }
    split; [|exact Hreq]. apply Hdry. destruct Hreq; [now left|right; eauto].
  - intros model_path. cbv zeta.
    assert (Hreq : requests (trace (run_from_model w self model_path opts)) = []
                   ∨ ∃ sql, fs_lookup w (str (as_Path model_path))
                            = Some (File (Some sql))
                            ∧ requests (trace (run_from_model w self model_path opts))
                              = [EQuery sql (dry_run_config opts)]).
    { unfold run_from_model, open_read, QueryJobConfig_new, query,
        _trim_path_from, first_error_message.
      py_unfold.
      destruct (fs_lookup w (str (as_Path model_path))) as [[[sql|]|]|];
        simpl; try now left.
      destruct (opts !! "dry_run"); simpl; [now left|]. right. exists sql.
      split; [reflexivity|].
      destruct (client_query _ _ _) as [job|[|entry errors]|kind]; simpl;
        destruct (index "models" (as_Path model_path)); simpl;
        try reflexivity.
      now destruct (entry !! "message"). }
    split; [|exact Hreq]. apply Hdry.
    destruct Hreq as [Hreq|(sql & _ & Hreq)]; [now left|right; eauto].
Qed.

(** A caller who passes [dry_run] among the options gets a [TypeError]
    (the keyword is given twice) and no request is sent: [run] does nothing
    at all, [run_from_model] has only read the file. *)
Theorem duplicate_dry_run_option (w : World) (self : BigQueryDryRunner)
  (opts : gmap string string) :
  is_Some (opts !! "dry_run") →
  (∀ sql, run w self sql opts = ([], Raised TypeError))
  ∧ (∀ model_path,
       requests (trace (run_from_model w self model_path opts)) = []
       ∧ (open_error w (str (as_Path model_path)) = None →
          run_from_model w self model_path opts
          = ([EOpen (str (as_Path model_path))], Raised TypeError))).
Proof.
  intros [v Hv]. split.
  - intros sql. unfold run, QueryJobConfig_new. now rewrite Hv.
  - intros model_path. unfold run_from_model, open_read, open_error,
      QueryJobConfig_new.
    rewrite Hv. py_unfold.
    destruct (fs_lookup w (str (as_Path model_path))) as [[[sql|]|]|];
      simpl; split; try reflexivity; discriminate.
Qed.

Lemma duplicate_dry_run_option_witness :
  run w_valid runner "select 1" {[ "dry_run" := "False" ]} = ([], Raised TypeError).
Proof.
  apply (duplicate_dry_run_option w_valid runner {[ "dry_run" := "False" ]}).
  now exists "False".
Defined.

(** A file that cannot be read: [run_from_model] raises the error of
    [open] (missing file, directory, no permission) right after trying to
    open it; the service is not contacted and nothing is logged. *)
Theorem unreadable_model (w : World) (self : BigQueryDryRunner)
  (model_path : path_arg) (opts : gmap string string) (e : exn) :
  open_error w (str (as_Path model_path)) = Some e →
  run_from_model w self model_path opts
  = ([EOpen (str (as_Path model_path))], Raised e).
Proof.
  intros He. unfold run_from_model. now rewrite (open_read_error _ _ _ He).
Qed.

Lemma unreadable_model_witness :
  run_from_model w_valid runner (PStr "/repo/target/models/none.sql") ∅
  = ([EOpen "/repo/target/models/none.sql"],
     Raised (FileNotFoundError "/repo/target/models/none.sql"))
  ∧ run_from_model w_valid runner (PStr "/repo/target/incremental") ∅
    = ([EOpen "/repo/target/incremental"],
       Raised (IsADirectoryError "/repo/target/incremental")).
Proof.
  split.
  - apply (unreadable_model w_valid runner
             (PStr "/repo/target/models/none.sql") ∅). reflexivity.
  - apply (unreadable_model w_valid runner (PStr "/repo/target/incremental") ∅).
    reflexivity.
Defined.

(** A [BadRequest] whose first error entry cannot be read is lost: with an
    empty list of errors the handler raises [IndexError], with a first
    entry that has no "message" it raises [KeyError("message")]; the
    request has been sent, no error line is written, and the [BadRequest]
    is not what the caller gets. This holds for [run], and for
    [run_from_model] on a readable file whose path has a "models"
    component. *)
Theorem bad_request_without_message (w : World) (self : BigQueryDryRunner)
  (opts : gmap string string) (errors : list error_entry) (e : exn) :
  opts !! "dry_run" = None →
  first_error_message errors = ([], Raised e) →
  (∀ sql,
     client_query w (client self) sql (dry_run_config opts) = Rejected errors →
     run w self sql opts = ([EQuery sql (dry_run_config opts)], Raised e))
  ∧ (∀ model_path sql,
       fs_lookup w (str (as_Path model_path)) = Some (File (Some sql)) →
       In "models" (as_Path model_path) →
       client_query w (client self) sql (dry_run_config opts) = Rejected errors →
       run_from_model w self model_path opts
       = ([EOpen (str (as_Path model_path)); EQuery sql (dry_run_config opts)],
          Raised e))
  ∧ (e = IndexError ∨ e = KeyError "message").
Proof.
  intros Hopts Hmsg. split; [|split].
  - intros sql Hq. unfold run, QueryJobConfig_new, query. rewrite Hopts.
    py_unfold. unfold dry_run_config in Hq. rewrite Hq. simpl.
    unfold raise in Hmsg. now rewrite Hmsg.
  - intros model_path sql Hfile Hin Hq.
    unfold run_from_model, QueryJobConfig_new, query, _trim_path_from.
    rewrite (open_read_text _ _ _ Hfile), Hopts.
    destruct (index "models" (as_Path model_path)) as [i|] eqn:Hi;
      [|apply index_None in Hi; contradiction].
    py_unfold. unfold dry_run_config in Hq. rewrite Hq. simpl.
    unfold raise in Hmsg. now rewrite Hmsg.
  - revert Hmsg. unfold first_error_message. py_unfold.
    destruct errors as [|entry rest]; [intros [= <-]; now left|].
    destruct (entry !! "message"); [discriminate|]. intros [= <-]. now right.
Qed.

Lemma bad_request_without_message_witness :
  run {| fs_root := fs_root w_valid; cwd := cwd w_valid;
         yaml_safe_load := load; client_init := λ _ _, None;
         client_query := λ _ _ _, Rejected [] |} runner "select 1" ∅
  = ([EQuery "select 1" (dry_run_config ∅)], Raised IndexError).
Proof.
  apply (bad_request_without_message
           {| fs_root := fs_root w_valid; cwd := cwd w_valid;
              yaml_safe_load := load; client_init := λ _ _, None;
              client_query := λ _ _ _, Rejected [] |} runner ∅ [] IndexError);
    reflexivity.
Defined.

(** [run_from_model] takes a string or a path: for a path [p] in normal
    form, calling it with [str(p)] and calling it with [p] are the same. *)
Theorem run_from_model_str_or_path (w : World) (self : BigQueryDryRunner)
  (p : Path) (opts : gmap string string) :
  wf_path p = true →
  run_from_model w self (PStr (str p)) opts
  = run_from_model w self (PPath p) opts.
Proof.
  intros Hwf. unfold run_from_model, as_Path.
  now rewrite (Path_of_str_str p Hwf).
Qed.

Lemma run_from_model_str_or_path_witness :
  run_from_model w_valid runner
    (PStr "/repo/target/incremental/compiled/shop/models/a.sql") ∅
  = run_from_model w_valid runner
      (PPath ["/"; "repo"; "target"; "incremental"; "compiled"; "shop";
              "models"; "a.sql"]) ∅.
Proof.
  apply (run_from_model_str_or_path w_valid runner
           ["/"; "repo"; "target"; "incremental"; "compiled"; "shop";
            "models"; "a.sql"] ∅). reflexivity.
Defined.

(** The outcome of [run_from_model] on a readable file whose path has a
    "models" component follows the answer of the service: an accepted text
    gives the job back after the line "Model <label> is valid."; a rejected
    one whose first error has a message gives the error line with that
    message and the [BadRequest] itself. The label is what
    [_trim_path_from] returns. *)
Theorem run_from_model_follows_service (w : World) (self : BigQueryDryRunner)
  (model_path : path_arg) (opts : gmap string string) (sql : string) :
  opts !! "dry_run" = None →
  fs_lookup w (str (as_Path model_path)) = Some (File (Some sql)) →
  In "models" (as_Path model_path) →
  ∃ label,
    _trim_path_from self (as_Path model_path) "models" = ([], Returned label)
    ∧ (∀ job,
         client_query w (client self) sql (dry_run_config opts) = Accepted job →
         run_from_model w self model_path opts
         = ([EOpen (str (as_Path model_path)); EQuery sql (dry_run_config opts);
             ELog INFO (valid_message label)], Returned job))
    ∧ (∀ entry rest m,
         client_query w (client self) sql (dry_run_config opts)
         = Rejected (entry :: rest) →
         entry !! "message" = Some m →
         run_from_model w self model_path opts
         = ([EOpen (str (as_Path model_path)); EQuery sql (dry_run_config opts);
             ELog ERROR (invalid_message label m)],
            Raised (BadRequest (entry :: rest)))).
Proof.
  intros Hopts Hfile Hin.
  unfold run_from_model, QueryJobConfig_new, query, _trim_path_from.
  rewrite (open_read_text _ _ _ Hfile), Hopts.
  destruct (index "models" (as_Path model_path)) as [i|] eqn:Hi;
    [|apply index_None in Hi; contradiction].
  eexists. split; [reflexivity|]. split.
  - intros job Hq. py_unfold. unfold dry_run_config in Hq. now rewrite Hq.
  - intros entry rest m Hq Hm. py_unfold. unfold dry_run_config in Hq.
    rewrite Hq. simpl. now rewrite Hm.
Qed.

Lemma run_from_model_follows_service_witness :
  ∃ label,
    _trim_path_from runner
      (as_Path (PStr "/repo/target/incremental/compiled/shop/models/a.sql"))
      "models" = ([], Returned label)
    ∧ run_from_model w_mixed runner
        (PStr "/repo/target/incremental/compiled/shop/models/a.sql") ∅
      = ([EOpen "/repo/target/incremental/compiled/shop/models/a.sql";
          EQuery "select 1" (dry_run_config ∅);
          ELog INFO (valid_message label)], Returned job1).
Proof.
  destruct (run_from_model_follows_service w_mixed runner
              (PStr "/repo/target/incremental/compiled/shop/models/a.sql") ∅
              "select 1") as (label & Hlabel & Hok & _);
    [reflexivity|reflexivity|in_list|].
  exists label. split; [exact Hlabel|]. now apply Hok.
Defined.

(** [run] on an accepted text: one dry-run request, the line "Provided
    query is valid.", and the job of the service as the result. *)
Theorem run_accepted (w : World) (self : BigQueryDryRunner) (sql : string)
  (opts : gmap string string) (job : QueryJob) :
  opts !! "dry_run" = None →
  client_query w (client self) sql (dry_run_config opts) = Accepted job →
  run w self sql opts
  = ([EQuery sql (dry_run_config opts); ELog INFO "Provided query is valid."],
     Returned job).
Proof.
  intros Hopts Hq. unfold run, QueryJobConfig_new, query. rewrite Hopts.
  py_unfold. unfold dry_run_config in Hq. now rewrite Hq.
Qed.

Lemma run_accepted_witness :
  run w_valid runner "select 1" {[ "use_legacy_sql" := "False" ]}
  = ([EQuery "select 1" (dry_run_config {[ "use_legacy_sql" := "False" ]});
      ELog INFO "Provided query is valid."], Returned job1).
Proof.
  apply (run_accepted w_valid runner "select 1"
           {[ "use_legacy_sql" := "False" ]} job1); reflexivity.
Defined.

End AdapterFacts.

(** ** More on the batch *)

Module BatchMoreFacts.
Import Pathlib Py DryRun Notions Scenarios PathlibFacts DryRunFacts PoolFacts
  BatchFacts.

Lemma run_from_model_opened w self model_path opts :
  opened (trace (run_from_model w self model_path opts))
  = [str (as_Path model_path)].
Proof.
  unfold run_from_model, open_read, QueryJobConfig_new, query, _trim_path_from,
    first_error_message.
  py_unfold.
  destruct (fs_lookup w (str (as_Path model_path))) as [[[sql|]|]|];
    simpl; try reflexivity.
  destruct (opts !! "dry_run"); simpl; [reflexivity|].
  destruct (client_query _ _ _) as [job|[|entry errors]|kind]; simpl;
    destruct (index "models" (as_Path model_path)); simpl; try reflexivity.
  now destruct (entry !! "message").
Qed.

Lemma run_from_model_requests w self model_path opts :
  ∃ sqls, (length sqls ≤ 1)%nat
          ∧ requests (trace (run_from_model w self model_path opts))
            = (λ sql, EQuery sql (dry_run_config opts)) <$> sqls.
Proof.
  unfold run_from_model, open_read, QueryJobConfig_new, query, _trim_path_from,
    first_error_message.
  py_unfold.
  destruct (fs_lookup w (str (as_Path model_path))) as [[[sql|]|]|];
    simpl; try (exists []; split; [simpl; lia|reflexivity]).
  destruct (opts !! "dry_run"); simpl;
    [exists []; split; [simpl; lia|reflexivity]|].
  exists [sql]. split; [reflexivity|].
  destruct (client_query _ _ _) as [job|[|entry errors]|kind]; simpl;
    destruct (index "models" (as_Path model_path)); simpl; try reflexivity.
  now destruct (entry !! "message").
Qed.

Lemma omap_concat {A B} (f : A → option B) (l : list (list A)) :
  omap f (concat l) = concat ((λ x : list A, omap f x) <$> l).
Proof.
  induction l as [|x l IH]; [reflexivity|].
  rewrite concat_cons, omap_app, IH. reflexivity.
Qed.

Lemma concat_singletons {A B} (g : A → B) (h : A → list B) (l : list A) :
  (∀ a, h a = [g a]) → concat (h <$> l) = g <$> l.
Proof.
  intros H. induction l as [|a l IH]; [reflexivity|].
  rewrite !fmap_cons, concat_cons, IH, H. reflexivity.
Qed.

Lemma filter_length_concat_le {A B} (f : B → bool) (g : A → list B) (l : list A) :
  (∀ a, (length (List.filter f (g a)) ≤ 1)%nat) →
  (length (List.filter f (concat (g <$> l))) ≤ length l)%nat.
Proof.
  intros H. induction l as [|a l IH]; [reflexivity|].
  rewrite fmap_cons, concat_cons, List.filter_app, length_app.
  specialize (H a). simpl. lia.
Qed.

(** What a batch does outside the program: it opens each discovered model
    once and nothing else, it sends at most one request per model, and
    every request is a dry run without further options. *)
Theorem batch_opens_and_requests (w : World) (self : BigQueryDryRunner)
  (schedule : list nat) :
  let t := trace (run_all_models w self schedule) in
  let models := _get_compiled_models w self in
  Permutation (opened t) ((λ node, str (Path_of_str (str node))) <$> models)
  ∧ (length (requests t) ≤ length models)%nat
  ∧ (∀ sql cfg, In (EQuery sql cfg) t → cfg = dry_run_config ∅)
  ∧ dry_runs_only t.
Proof.
  cbv zeta. pose proof (run_all_models_trace w self schedule) as Hperm.
  assert (Hcfg : ∀ sql cfg,
            In (EQuery sql cfg) (trace (run_all_models w self schedule)) →
            cfg = dry_run_config ∅).
  { intros sql cfg Hin. apply (Permutation_in _ Hperm) in Hin.
    apply in_concat in Hin as (t & Ht & Hin).
    apply list_elem_of_In, list_elem_of_fmap in Ht as (node & -> & _).
    destruct (run_from_model_requests w self (PStr (str node)) ∅)
      as (sqls & _ & Hreq).
    assert (Hin' : In (EQuery sql cfg)
                     (requests (trace (unit_of w self (str node)))))
      by (apply filter_In; now split).
    unfold unit_of in Hin'. rewrite Hreq in Hin'.
    apply list_elem_of_In, list_elem_of_fmap in Hin' as (sql' & [= _ ->] & _).
    reflexivity. }
  split; [|split; [|split]].
  - unfold opened. rewrite Hperm, omap_concat, <- list_fmap_compose.
    rewrite (concat_singletons (λ node, str (Path_of_str (str node)))).
    + reflexivity.
    + intros node. apply (run_from_model_opened w self (PStr (str node)) ∅).
  - unfold requests. rewrite (filter_length_Permutation _ _ _ Hperm).
    apply filter_length_concat_le. intros node.
    destruct (run_from_model_requests w self (PStr (str node)) ∅)
      as (sqls & Hlen & Hreq).
    unfold requests, unit_of in *. rewrite Hreq, length_fmap. exact Hlen.
  - exact Hcfg.
  - intros sql cfg Hin. now rewrite (Hcfg sql cfg Hin).
Qed.

(** The order in which the futures come back changes neither the calls
    that are made nor whether the batch succeeds: for any two schedules the
    futures are the same, the events are the same up to their order, and
    the function raises under one exactly when it raises under the other. *)
Theorem batch_schedule_independent (w : World) (self : BigQueryDryRunner)
  (schedule1 schedule2 : list nat) :
  futures (fst (run_all_models_pool w self schedule1))
  = futures (fst (run_all_models_pool w self schedule2))
  ∧ Permutation (trace (run_all_models w self schedule1))
      (trace (run_all_models w self schedule2))
  ∧ is_raised (result (run_all_models w self schedule1))
    = is_raised (result (run_all_models w self schedule2)).
Proof.
  destruct (run_all_models_pool_spec w self schedule1) as (Hf1 & Hr1 & _).
  destruct (run_all_models_pool_spec w self schedule2) as (Hf2 & Hr2 & _).
  split; [now rewrite Hf1, Hf2|]. split.
  - rewrite (run_all_models_trace w self schedule1).
    now rewrite (run_all_models_trace w self schedule2).
  - rewrite !run_all_models_result.
    destruct (snd (run_all_models_pool w self schedule1)) as [[]|e1],
             (snd (run_all_models_pool w self schedule2)) as [[]|e2];
      try reflexivity.
    + destruct Hr1 as [Hr1 _], Hr2 as [_ Hr2].
      specialize (Hr2 (Hr1 eq_refl)). discriminate.
    + destruct Hr1 as [_ Hr1], Hr2 as [Hr2 _].
      specialize (Hr1 (Hr2 eq_refl)). discriminate.
Qed.

(** When one model fails and every other call returns, the exception of
    that model is what [run_all_models] raises, under every schedule. *)
Theorem batch_single_failure (w : World) (self : BigQueryDryRunner)
  (schedule : list nat) (bad : Path) (e : exn) :
  In bad (_get_compiled_models w self) →
  result (unit_of w self (str bad)) = Raised e →
  (∀ node, In node (_get_compiled_models w self) →
           is_raised (result (unit_of w self (str node))) = true →
           node = bad) →
  result (run_all_models w self schedule) = Raised e.
Proof.
  intros Hbad He Hothers. rewrite run_all_models_result.
  destruct (run_all_models_pool_spec w self schedule) as (_ & Hret & Hraise).
  destruct (snd (run_all_models_pool w self schedule)) as [[]|e'].
  - destruct Hret as [Hret _]. specialize (Hret eq_refl bad Hbad).
    rewrite He in Hret. discriminate.
  - destruct (Hraise e' eq_refl) as (node & Hin & Hnode).
    assert (Hsame : node = bad)
      by (apply Hothers; [exact Hin|now rewrite Hnode]).
    rewrite Hsame, He in Hnode. now injection Hnode as ->.
Qed.

Lemma batch_single_failure_witness :
  result (run_all_models w_mixed runner [0]) = Raised (BadRequest [unknown_column])
  ∧ result (run_all_models w_mixed runner [1]) = Raised (BadRequest [unknown_column]).
Proof.
  assert (H : ∀ schedule,
            result (run_all_models w_mixed runner schedule)
            = Raised (BadRequest [unknown_column])).
  { intros schedule.
    apply (batch_single_failure w_mixed runner schedule
             (dbt_target_dir runner ++ ["b"; "bad.sql"])%list).
    - rewrite models_mixed. right. now left.
    - reflexivity.
    - intros node Hin. rewrite models_mixed in Hin.
      destruct Hin as [<-|[<-|[]]]; [discriminate|reflexivity]. }
  split; apply H.
Defined.

(** A runner built by [__init__] never trips over a label: every model it
    discovers has a "models" component, so [_trim_path_from] returns a label
    that starts with "models" for it, no call of the batch raises
    [ValueError], and neither does [run_all_models]. *)
Theorem constructed_runner_labels (w : World) (project : string)
  (target_dir : option string) (location : string) (self : BigQueryDryRunner) :
  result (__init__ w project target_dir location) = Returned self →
  (∀ node, In node (_get_compiled_models w self) →
     (∃ label,
        _trim_path_from self (as_Path (PStr (str node))) "models"
        = ([], Returned label)
        ∧ hd_error label = Some "models")
     ∧ result (unit_of w self (str node)) ≠ Raised ValueError)
  ∧ (∀ schedule, result (run_all_models w self schedule) ≠ Raised ValueError).
Proof.
  intros Hinit.
  assert (Hnode : ∀ node, In node (_get_compiled_models w self) →
     (∃ label,
        _trim_path_from self (as_Path (PStr (str node))) "models"
        = ([], Returned label)
        ∧ hd_error label = Some "models")
     ∧ result (unit_of w self (str node)) ≠ Raised ValueError).
  { intros node Hin.
    pose proof (compiled_models_have_models _ _ _ _ _ _ Hinit Hin) as Hm.
    apply (In_Path_of_str_str "models" node eq_refl) in Hm.
    pose proof (wf_Path_of_str (str node)) as Hwf.
    destruct (index "models" (Path_of_str (str node))) as [i|] eqn:Hi;
      [|apply index_None in Hi; contradiction].
    split.
    - unfold as_Path, _trim_path_from. rewrite Hi.
      rewrite Path_of_args_parts by now apply wf_path_drop.
      destruct (index_Some _ _ _ Hi) as (pre & post & _ & _ & _ & Hdrop).
      rewrite Hdrop. now eexists.
    - unfold unit_of, run_from_model, as_Path, open_read, QueryJobConfig_new,
        query, _trim_path_from, first_error_message.
      rewrite Hi, lookup_empty. py_unfold.
      destruct (fs_lookup w (str (Path_of_str (str node)))) as [[[sql|]|]|];
        simpl; try discriminate.
      destruct (client_query _ _ _) as [job|[|entry errors]|kind]; simpl;
        try discriminate.
      destruct (entry !! "message"); simpl; discriminate. }
  split; [exact Hnode|].
  intros schedule H. rewrite run_all_models_result in H.
  destruct (run_all_models_pool_spec w self schedule) as (_ & _ & Hraise).
  destruct (Hraise _ H) as (node & Hin & Hunit).
  now apply (Hnode node Hin).
Qed.

Lemma constructed_runner_labels_witness :
  result (run_all_models w_mixed runner [1]) ≠ Raised ValueError.
Proof.
  destruct (constructed_runner_labels w_mixed "p" (Some "incremental") "EU" runner)
    as [_ H]; [reflexivity|]. apply H.
Defined.

End BatchMoreFacts.

(** ** More on hooks.py *)

Module ScriptFacts.
Import Pathlib Py DryRun Hooks Notions Scenarios PathlibFacts DryRunFacts
  PoolFacts BatchFacts HooksFacts RunnerFacts.

Lemma dry_run_full_refresh_never_exits w schedule :
  never_exits (dry_run_full_refresh_models w schedule).
Proof.
  unfold dry_run_full_refresh_models.
  apply never_exits_bind; [intros code; discriminate|]. intros _.
  apply never_exits_bind; [apply init_never_exits|].
  intros self. apply run_all_models_never_exits.
Qed.

Lemma exit_status_raised (m : Py unit) e :
  never_exits m → result m = Raised e → exit_status (result m) = 1%Z.
Proof.
  intros Hm He. rewrite He. destruct e; try reflexivity.
  exfalso. exact (Hm code He).
Qed.

(** The script validates the incremental models before it looks at its
    argument. When that first batch fails, the script ends there with the
    same events and the same exception, whatever the argument: the named
    operation is not run, no usage message is printed, and the exit status
    is 1. *)
Theorem first_batch_failure_ends_script (w : World)
  (schedule1 schedule2 : list nat) (argv : list string) (e : exn) :
  result (dry_run_incremental_models w schedule1) = Raised e →
  main w schedule1 schedule2 argv = dry_run_incremental_models w schedule1
  ∧ exit_status (result (main w schedule1 schedule2 argv)) = 1%Z.
Proof.
  intros He.
  assert (Hmain : main w schedule1 schedule2 argv
                  = dry_run_incremental_models w schedule1).
  { unfold main. py_unfold.
    destruct (dry_run_incremental_models w schedule1) as [t [[]|e']];
      [discriminate|reflexivity]. }
  split; [exact Hmain|]. rewrite Hmain.
  now apply (exit_status_raised _ e (dry_run_incremental_never_exits w schedule1)).
Qed.

Lemma first_batch_failure_ends_script_witness :
  main w_mixed [] [] ["hooks.py"; "full_refresh"]
  = dry_run_incremental_models w_mixed [].
Proof.
  apply (first_batch_failure_ends_script w_mixed [] []
           ["hooks.py"; "full_refresh"] (BadRequest [unknown_column])).
  reflexivity.
Defined.

(** With a valid argument and a first batch that succeeds, the script
    goes on with the named operation: for [incremental] the incremental
    batch once more, for [full_refresh] the full-refresh batch, which
    starts by printing its banner. The script ends as that operation ends. *)
Theorem named_operation_runs_second (w : World)
  (schedule1 schedule2 : list nat) (argv : list string) :
  result (dry_run_incremental_models w schedule1) = Returned tt →
  (argv !! 1 = Some "incremental" →
   main w schedule1 schedule2 argv
   = (trace (dry_run_incremental_models w schedule1)
        ++ trace (dry_run_incremental_models w schedule2),
      result (dry_run_incremental_models w schedule2)))
  ∧ (argv !! 1 = Some "full_refresh" →
     main w schedule1 schedule2 argv
     = (trace (dry_run_incremental_models w schedule1)
          ++ trace (dry_run_full_refresh_models w schedule2),
        result (dry_run_full_refresh_models w schedule2))
     ∧ hd_error (trace (dry_run_full_refresh_models w schedule2))
       = Some (EPrint "Running full refresh models")).
Proof.
  intros Hfirst. unfold main, argv_getitem.
  destruct (dry_run_incremental_models w schedule1) as [t [[]|e]] eqn:H1;
    [|discriminate].
  split.
  - intros ->. py_unfold. simpl.
    now destruct (dry_run_incremental_models w schedule2) as [t2 o2].
  - intros ->. py_unfold. simpl. split.
    + now destruct (dry_run_full_refresh_models w schedule2) as [t2 o2].
    + unfold dry_run_full_refresh_models. py_unfold.
      now destruct (__init__ w _ _ _) as [ti [self|e]];
        [destruct (run_all_models w self schedule2)|].
Qed.

Lemma named_operation_runs_second_witness :
  main w_valid [] [] ["hooks.py"; "incremental"]
  = (trace (dry_run_incremental_models w_valid [])
       ++ trace (dry_run_incremental_models w_valid []),
     Returned tt).
Proof.
  destruct (named_operation_runs_second w_valid [] [] ["hooks.py"; "incremental"])
    as [Hinc _]; [reflexivity|].
  now rewrite Hinc.
Defined.

(** The exit status of the script is 0 exactly when the argument names an
    operation, the first (incremental) batch returns, and the named
    operation returns as well. *)
Theorem exit_status_zero (w : World) (schedule1 schedule2 : list nat)
  (argv : list string) :
  exit_status (result (main w schedule1 schedule2 argv)) = 0%Z
  ↔ result (dry_run_incremental_models w schedule1) = Returned tt
    ∧ ((argv !! 1 = Some "incremental"
        ∧ result (dry_run_incremental_models w schedule2) = Returned tt)
       ∨ (argv !! 1 = Some "full_refresh"
          ∧ result (dry_run_full_refresh_models w schedule2) = Returned tt)).
Proof.
  pose proof (dry_run_incremental_never_exits w schedule1) as Hex1.
  pose proof (dry_run_incremental_never_exits w schedule2) as Hex2.
  pose proof (dry_run_full_refresh_never_exits w schedule2) as Hex3.
  assert (Hzero : ∀ m : Py unit, never_exits m →
            exit_status (result m) = 0%Z ↔ result m = Returned tt).
  { intros m Hm. split.
    - destruct (result m) as [[]|e] eqn:He; [reflexivity|].
      rewrite <- He, (exit_status_raised m e Hm He). discriminate.
    - now intros ->. }
  unfold main, argv_getitem.
  destruct (dry_run_incremental_models w schedule1) as [t [[]|e]] eqn:H1.
  - py_unfold. simpl.
    destruct (argv !! 1) as [a|] eqn:Ha; simpl.
    + destruct (String.eqb_spec a "incremental") as [->|Hinc].
      * destruct (dry_run_incremental_models w schedule2) as [t2 o2] eqn:H2.
        simpl. specialize (Hzero (t2, o2) Hex2). simpl in Hzero.
        rewrite Hzero. split; [intros ->; split; [reflexivity|now left]|].
        intros [_ [[_ H]|[[=] _]]]. exact H.
      * destruct (String.eqb_spec a "full_refresh") as [->|Hfull].
        -- destruct (dry_run_full_refresh_models w schedule2) as [t2 o2] eqn:H2.
           simpl. specialize (Hzero (t2, o2) Hex3). simpl in Hzero.
           rewrite Hzero. split; [intros ->; split; [reflexivity|now right]|].
           intros [_ [[[=] _]|[_ H]]]. exact H.
        -- simpl. split; [discriminate|].
           intros [_ [[[= ->] _]|[[= ->] _]]]; contradiction.
    + split; [discriminate|]. intros [_ [[[=] _]|[[=] _]]].
  - py_unfold. simpl. split; [|intros [[=] _]].
    intros H. exfalso. specialize (Hex1 0%Z). unfold result in Hex1. simpl in Hex1.
    destruct e; simpl in H; try discriminate. subst code. now apply Hex1.
Qed.

(** The two hooks differ by their label only. When the client can be made
    and [dbt_project.yml] holds a mapping whose "name" is a single path
    component, each hook validates the models below
    [<cwd>/target/<label>/compiled/<name>/models], with the client of the
    fixed project in [EU], and ends as that batch ends. *)
Theorem hooks_target_directories (w : World) (schedule : list nat)
  (text name : string) (d : gmap string yval) :
  client_init w "c4-links-ecollab-dev" "EU" = None →
  fs_lookup w "dbt_project.yml" = Some (File (Some text)) →
  yaml_safe_load w text = Some (YDict d) →
  d !! "name" = Some (YStr name) →
  clean name = true →
  let runner_for label :=
    {| client := {| client_project := "c4-links-ecollab-dev";
                    client_location := "EU" |};
       dbt_project_config := YDict d;
       root_path := cwd w;
       dbt_target_dir :=
         (cwd w ++ ["target"; label; "compiled"; name; "models"])%list |} in
  dry_run_incremental_models w schedule
  = ([EClient "c4-links-ecollab-dev" "EU"; EOpen "dbt_project.yml"]
       ++ trace (run_all_models w (runner_for "incremental") schedule),
     result (run_all_models w (runner_for "incremental") schedule))
  ∧ dry_run_full_refresh_models w schedule
    = ([EPrint "Running full refresh models";
        EClient "c4-links-ecollab-dev" "EU"; EOpen "dbt_project.yml"]
         ++ trace (run_all_models w (runner_for "full_refresh") schedule),
       result (run_all_models w (runner_for "full_refresh") schedule)).
Proof.
  intros Hclient Hfile Hload Hname Hclean. cbv zeta.
  assert (Hinit : ∀ label, clean label = true →
    __init__ w "c4-links-ecollab-dev" (Some label) "EU"
    = ([EClient "c4-links-ecollab-dev" "EU"; EOpen "dbt_project.yml"],
       Returned
         {| client := {| client_project := "c4-links-ecollab-dev";
                         client_location := "EU" |};
            dbt_project_config := YDict d;
            root_path := cwd w;
            dbt_target_dir :=
              (cwd w ++ ["target"; label; "compiled"; name; "models"])%list |})).
  { intros label Hlabel. unfold __init__, Client_new.
    rewrite Hclient, project_config_None, (open_read_text _ _ _ Hfile).
    py_unfold. simpl. rewrite Hload. simpl.
    unfold _get_dbt_target_dir, getitem, truediv.
    assert (Htruthy : truthy (Some label) = true).
    { simpl. apply clean_keep in Hlabel. unfold keep_segment in Hlabel.
      now apply andb_prop in Hlabel as [-> _]. }
    rewrite Htruthy. cbn -[joinpath]. rewrite Hname. py_unfold.
    cbn -[joinpath].
    rewrite !joinpath_clean by (assumption || reflexivity).
    now rewrite <- !app_assoc. }
  split.
  - unfold dry_run_incremental_models. rewrite (Hinit "incremental" eq_refl).
    py_unfold. now destruct (run_all_models w _ schedule).
  - unfold dry_run_full_refresh_models. rewrite (Hinit "full_refresh" eq_refl).
    py_unfold. simpl. now destruct (run_all_models w _ schedule).
Qed.

Lemma hooks_target_directories_witness :
  dry_run_incremental_models w_valid []
  = ([EClient "c4-links-ecollab-dev" "EU"; EOpen "dbt_project.yml"]
       ++ trace (run_all_models w_valid
                   {| client := {| client_project := "c4-links-ecollab-dev";
                                   client_location := "EU" |};
                      dbt_project_config := YDict {[ "name" := YStr "shop" ]};
                      root_path := ["/"; "repo"];
                      dbt_target_dir := dbt_target_dir runner |} []),
     Returned tt).
Proof.
  destruct (hooks_target_directories w_valid [] "name: shop" "shop"
              {[ "name" := YStr "shop" ]}) as [Hinc _];
    [reflexivity|reflexivity|reflexivity|reflexivity|reflexivity|].
  now rewrite Hinc.
Defined.

End ScriptFacts.
